(** * A shallow embedding of [script.js], the movie-catalogue client.

    The script keeps an in-memory array [allMovies] mirroring a REST
    collection, renders it into [#movie-list], filters it by a search box
    and mutates it after POST / PATCH / DELETE requests.

    Conventions of the model
    - A JavaScript string is a [jsstring], a sequence of UTF-16 code units.
      [trim] is the language's own, over the whole of its white-space set.
      [toLowerCase] depends on the Unicode tables of the runtime: it is a
      member of the class [Js.CaseMapping], of which two laws are assumed
      (it never empties a string, and on ASCII strings it lowers A-Z only).
    - [parseInt] yields a [Js.number]: exact up to 2^53 in magnitude,
      and beyond that the double the runtime rounds the digits to.
    - [undefined] is [None]; a movie field that is present carries a value
      of the type the data model gives it.
    - Handlers run in the monad [M]: the page state is threaded, a thrown
      [Error] carries its message and leaves the state as it was at the
      [throw], as in JavaScript.
    - A handler that awaits [fetch] is cut at the await: the part before it
      logs the request, the part after it takes the outcome of the request
      and runs on whatever the page state is by then. *)

From Stdlib Require Import List NArith ZArith Lia Bool DecimalString.
From Stdlib Require Import DecimalZ DecimalPos.
From Stdlib Require Ascii String.
From Stdlib.Strings Require Byte.
Import ListNotations.

(** ** JavaScript strings *)

(** A UTF-16 code unit, 0 .. 65535. *)
Definition codeunit : Type := N.
Bind Scope N_scope with codeunit.

Inductive jsstring : Type :=
| EmptyString
| String (c : codeunit) (s : jsstring).

(** String literals stand for their ASCII code units; other code units are
    written as numbers. *)
Fixpoint jsstring_of_bytes (l : list Byte.byte) : option jsstring :=
  match l with
  | [] => Some EmptyString
  | b :: l' =>
      if (Byte.to_N b <? 128)%N
      then option_map (String (Byte.to_N b)) (jsstring_of_bytes l')
      else None
  end.

Fixpoint bytes_of_jsstring (s : jsstring) : option (list Byte.byte) :=
  match s with
  | EmptyString => Some []
  | String c s' =>
      if (c <? 128)%N
      then match Byte.of_N c, bytes_of_jsstring s' with
           | Some b, Some l => Some (b :: l)
           | _, _ => None
           end
      else None
  end.

Declare Scope js_scope.
Delimit Scope js_scope with js.
Bind Scope js_scope with jsstring.
String Notation jsstring jsstring_of_bytes bytes_of_jsstring : js_scope.

(** Concatenation, [a + b] on strings. *)
Fixpoint append (a b : jsstring) : jsstring :=
  match a with
  | EmptyString => b
  | String c a' => String c (append a' b)
  end.
Notation "a ++ b" := (append a b) (right associativity, at level 60) : js_scope.

Local Open Scope js_scope.
Local Open Scope Z_scope.

(** ** JavaScript primitives *)

Module Js.

(** The code units removed by [String.prototype.trim] and skipped by
    [parseInt]: WhiteSpace (TAB, VT, FF, SPACE, NBSP, ZWNBSP and the other
    space separators) and LineTerminator (LF, CR, LS, PS). *)
Definition is_whitespace (c : codeunit) : bool :=
  match c with
  | 9%N | 10%N | 11%N | 12%N | 13%N | 32%N | 160%N | 5760%N
  | 8232%N | 8233%N | 8239%N | 8287%N | 12288%N | 65279%N => true
  | _ => ((8192 <=? c) && (c <=? 8202))%N
  end.

Fixpoint trimStart (s : jsstring) : jsstring :=
  match s with
  | EmptyString => EmptyString
  | String c r => if is_whitespace c then trimStart r else s
  end.

Fixpoint trimEnd (s : jsstring) : jsstring :=
  match s with
  | EmptyString => EmptyString
  | String c r =>
      match trimEnd r with
      | EmptyString => if is_whitespace c then EmptyString else String c EmptyString
      | r' => String c r'
      end
  end.

(** [s.trim()] *)
Definition trim (s : jsstring) : jsstring := trimEnd (trimStart s).

(** Every code unit is below 128. *)
Fixpoint is_ascii (s : jsstring) : bool :=
  match s with
  | EmptyString => true
  | String c r => ((c <? 128)%N && is_ascii r)%bool
  end.

(** The ASCII part of lower-casing, on one code unit: A-Z become a-z and
    every other code unit stays. *)
Definition lower_char (c : codeunit) : codeunit :=
  if ((65 <=? c) && (c <=? 90))%N then (c + 32)%N else c.

(** Lower-casing of the letters A-Z alone. *)
Fixpoint lowerAscii (s : jsstring) : jsstring :=
  match s with
  | EmptyString => EmptyString
  | String c r => String (lower_char c) (lowerAscii r)
  end.

(** [s.toLowerCase()] follows the Unicode case mappings of the runtime.
    What the script's properties rest on is that lower-casing never turns
    a non-empty string into the empty one and that on an ASCII string it
    lowers A-Z and nothing else. *)
Class CaseMapping : Type := {
  toLowerCase : jsstring -> jsstring;
  toLowerCase_nonempty : forall s, toLowerCase s = EmptyString -> s = EmptyString;
  toLowerCase_ascii : forall s, is_ascii s = true -> toLowerCase s = lowerAscii s
}.

(** [a === b] on strings. *)
Fixpoint eqb (a b : jsstring) : bool :=
  match a, b with
  | EmptyString, EmptyString => true
  | String x a', String y b' => ((x =? y)%N && eqb a' b')%bool
  | _, _ => false
  end.

(** [s.startsWith(q)] *)
Fixpoint startsWith (s q : jsstring) : bool :=
  match q, s with
  | EmptyString, _ => true
  | String _ _, EmptyString => false
  | String b q', String a s' => ((a =? b)%N && startsWith s' q')%bool
  end.

(** [s.includes(q)]: [q] occurs in [s] at some position. *)
Fixpoint includes (s q : jsstring) : bool :=
  (startsWith s q ||
   match s with
   | EmptyString => false
   | String _ r => includes r q
   end)%bool.

(** Truthiness of a string: the empty string is falsy. *)
Definition truthy_string (s : jsstring) : bool :=
  match s with EmptyString => false | String _ _ => true end.

(** [x || d] for a possibly undefined string [x]. *)
Definition or_string (x : option jsstring) (d : jsstring) : jsstring :=
  match x with
  | Some s => if truthy_string s then s else d
  | None => d
  end.

(** The code units of an ASCII text of the standard library. *)
Fixpoint of_string (s : String.string) : jsstring :=
  match s with
  | String.EmptyString => EmptyString
  | String.String a r => String (Ascii.N_of_ascii a) (of_string r)
  end.

(** [String(n)] for an integer [n]. *)
Definition string_of_Z (n : Z) : jsstring :=
  of_string (NilZero.string_of_int (Z.to_int n)).

Definition digit_of (c : codeunit) : option Z :=
  if ((48 <=? c) && (c <=? 57))%N then Some (Z.of_N (c - 48)) else None.

(** The value of the longest prefix of decimal digits; [acc] is [None]
    until a digit has been read. *)
Fixpoint read_digits (s : jsstring) (acc : option Z) : option Z :=
  match s with
  | EmptyString => acc
  | String c r =>
      match digit_of c with
      | Some d => read_digits r (Some (10 * match acc with Some a => a | None => 0 end + d))
      | None => acc
      end
  end.

(** The integer [parseInt(s, 10)] reads: leading white space is skipped,
    one sign is accepted, and the digits up to the first other character
    are read; [None] when there is no digit. *)
Definition parseDigits (s : jsstring) : option Z :=
  match trimStart s with
  | String 45%N r => option_map Z.opp (read_digits r None)
  | String 43%N r => read_digits r None
  | r => read_digits r None
  end.

(** A number as [parseInt] returns it.  An integer of magnitude at most
    2^53 is a double and is returned as it is; a larger one is rounded by
    the runtime to a double (possibly an infinity), which [Rounded z]
    stands for without saying which. *)
Inductive number : Type :=
| NaN
| Num (z : Z)
| Rounded (z : Z).

Definition safe (z : Z) : bool := Z.abs z <=? 2 ^ 53.

(** [parseInt(s, 10)] *)
Definition parseInt (s : jsstring) : number :=
  match parseDigits s with
  | None => NaN
  | Some z => if safe z then Num z else Rounded z
  end.

(** Truthiness of a number: [NaN] and zero are falsy. *)
Definition truthy (n : number) : bool :=
  match n with
  | NaN => false
  | Num z => negb (z =? 0)
  | Rounded _ => true
  end.

(** [n || undefined] *)
Definition or_undefined (n : number) : option number :=
  if truthy n then Some n else None.

(** Truthiness of a year of the data model, which may be missing. *)
Definition truthy_number (n : option Z) : bool :=
  match n with
  | Some z => negb (z =? 0)
  | None => false
  end.

End Js.

(** The case mapping that knows the ASCII letters only.  Every case
    mapping agrees with it on ASCII strings; it serves to run the script
    on ASCII data. *)
Definition asciiCase : Js.CaseMapping.
Proof.
  refine {| Js.toLowerCase := Js.lowerAscii |}.
  - intros [|c s] H; [reflexivity | discriminate H].
  - reflexivity.
Defined.

(** ** Data model *)

(** A movie id as the server hands it out: a JSON number or a JSON string. *)
Inductive ident : Type :=
| IdNum (n : Z)
| IdStr (s : jsstring).

Definition ident_eqb (a b : ident) : bool :=
  match a, b with
  | IdNum x, IdNum y => x =? y
  | IdStr s, IdStr t => Js.eqb s t
  | _, _ => false
  end.

(** [a === b] on ids, either of which may be [undefined]. *)
Definition strict_eq (a b : option ident) : bool :=
  match a, b with
  | Some x, Some y => ident_eqb x y
  | None, None => true
  | _, _ => false
  end.

(** An id interpolated into a template literal. *)
Definition show_id (i : option ident) : jsstring :=
  match i with
  | None => "undefined"
  | Some (IdNum n) => Js.string_of_Z n
  | Some (IdStr s) => s
  end.

Record Movie : Type := mkMovie {
  m_id : option ident;
  m_title : option jsstring;
  m_year : option Z;
  m_genre : option jsstring
}.

(** ** Requests and their outcomes *)

Inductive Method : Type := GET | POST | PATCH | DELETE.

(** The object given to [JSON.stringify]; an undefined [year] is left out. *)
Record Payload : Type := mkPayload {
  p_title : jsstring;
  p_year : option Js.number;
  p_genre : jsstring
}.

Record Request : Type := mkRequest {
  method : Method;
  url : jsstring;
  body : option Payload
}.

(** A response: its status and what [res.json()] yields, either the decoded
    value or the message of the error it rejects with. *)
Record Response (A : Type) : Type := mkResponse {
  status : Z;
  json : jsstring + A
}.
Arguments mkResponse {A} _ _.
Arguments status {A} _.
Arguments json {A} _.

(** [res.ok] *)
Definition ok {A} (res : Response A) : bool :=
  ((200 <=? status res) && (status res <=? 299))%bool.

(** What the promise returned by [fetch] settles to. *)
Inductive FetchResult (A : Type) : Type :=
| Rejected (message : jsstring)
| Resolved (res : Response A).
Arguments Rejected {A} _.
Arguments Resolved {A} _.

(** ** The page *)

(** Children of [#movie-list].  A movie row records the two texts of its
    paragraph and the arguments its two click listeners close over. *)
Inductive Node : Type :=
| Paragraph (text : jsstring)
| MovieItem (strong meta : jsstring)
            (editBtn : option ident * option jsstring * option Z * option jsstring)
            (deleteBtn : option ident).

(** What the page did towards the user and the network. *)
Inductive Event : Type :=
| Prompted (message default : jsstring)
| AskedConfirm (message : jsstring)
| Fetched (r : Request)
| FormReset.

Record World : Type := mkWorld {
  allMovies : list Movie;       (* the cache *)
  movieList : list Node;        (* children of #movie-list *)
  searchValue : jsstring;         (* searchInput.value *)
  mmError : option jsstring;      (* textContent of #mm-error; None: not created *)
  timers : list Z;              (* due times of the pending timeouts *)
  now : Z;                      (* clock, in milliseconds *)
  trace : list Event            (* oldest first *)
}.

Definition set_allMovies (l : list Movie) (w : World) : World :=
  mkWorld l (movieList w) (searchValue w) (mmError w) (timers w) (now w) (trace w).
Definition set_movieList (l : list Node) (w : World) : World :=
  mkWorld (allMovies w) l (searchValue w) (mmError w) (timers w) (now w) (trace w).
Definition set_searchValue (s : jsstring) (w : World) : World :=
  mkWorld (allMovies w) (movieList w) s (mmError w) (timers w) (now w) (trace w).
Definition set_mmError (e : option jsstring) (w : World) : World :=
  mkWorld (allMovies w) (movieList w) (searchValue w) e (timers w) (now w) (trace w).
Definition set_timers (t : list Z) (w : World) : World :=
  mkWorld (allMovies w) (movieList w) (searchValue w) (mmError w) t (now w) (trace w).
Definition set_now (t : Z) (w : World) : World :=
  mkWorld (allMovies w) (movieList w) (searchValue w) (mmError w) (timers w) t (trace w).
Definition log (e : Event) (w : World) : World :=
  mkWorld (allMovies w) (movieList w) (searchValue w) (mmError w) (timers w) (now w)
          (trace w ++ [e]).

(** The person at the keyboard: what they type into a [prompt] (or [None]
    when they cancel it) and whether they accept a [confirm]. *)
Record User : Type := mkUser {
  answer : jsstring -> jsstring -> option jsstring;
  accepts : jsstring -> bool
}.

(** ** The handler monad *)

Inductive Completion (A : Type) : Type :=
| Normal (a : A)
| Thrown (message : jsstring).
Arguments Normal {A} _.
Arguments Thrown {A} _.

Definition M (A : Type) : Type := World -> Completion A * World.

Definition ret {A} (a : A) : M A := fun w => (Normal a, w).

Definition bind {A B} (c : M A) (k : A -> M B) : M B :=
  fun w =>
    match c w with
    | (Normal a, w') => k a w'
    | (Thrown e, w') => (Thrown e, w')
    end.

(** [throw new Error(message)] *)
Definition throw {A} (message : jsstring) : M A := fun w => (Thrown message, w).

(** [try { c } catch (err) { handler(err.message) }] *)
Definition try_catch {A} (c : M A) (handler : jsstring -> M A) : M A :=
  fun w =>
    match c w with
    | (Normal a, w') => (Normal a, w')
    | (Thrown e, w') => handler e w'
    end.

Definition gets {A} (f : World -> A) : M A := fun w => (Normal (f w), w).
Definition modify (f : World -> World) : M unit := fun w => (Normal tt, f w).

Declare Scope js_scope.
Delimit Scope js_scope with js.
Notation "x <- c ;; k" := (bind c (fun x => k))
  (at level 61, c at next level, right associativity) : js_scope.
Notation "c ;; k" := (bind c (fun _ => k))
  (at level 61, right associativity) : js_scope.
Local Open Scope js_scope.

(** The state a handler leaves behind. *)
Definition exec {A} (c : M A) (w : World) : World := snd (c w).
(** How a handler completes. *)
Definition eval {A} (c : M A) (w : World) : Completion A := fst (c w).

(** ** Browser primitives *)

Definition window_prompt (u : User) (message default : jsstring) : M (option jsstring) :=
  fun w => (Normal (answer u message default), log (Prompted message default) w).

Definition window_confirm (u : User) (message : jsstring) : M bool :=
  fun w => (Normal (accepts u message), log (AskedConfirm message) w).

(** [fetch(url, options)] up to the point where the request has left. *)
Definition fetch (r : Request) : M unit := modify (log (Fetched r)).

(** Awaiting the promise of [fetch]: a rejection is thrown. *)
Definition await {A} (r : FetchResult A) : M (Response A) :=
  match r with
  | Rejected e => throw e
  | Resolved res => ret res
  end.

(** [await res.json()] *)
Definition res_json {A} (res : Response A) : M A :=
  match json res with
  | inl e => throw e
  | inr a => ret a
  end.

(** The event loop idles for [ms] milliseconds: every timeout that falls due
    runs its callback [() => { if (el) el.textContent = '' }]. *)
Definition elapse (ms : Z) (w : World) : World :=
  let t := now w + ms in
  let due := filter (fun d => d <=? t) (timers w) in
  let w1 := set_now t (set_timers (filter (fun d => negb (d <=? t)) (timers w)) w) in
  match due with
  | [] => w1
  | _ :: _ => set_mmError (Some "") w1
  end.

(** ** The script *)

Definition API_URL : jsstring := "http://localhost:3000/movies".

(** [showError(message)]: the slot [#mm-error] is created on first use, its
    text becomes [message], and a timeout is set to blank it 5000 ms later.
    Timeouts set by earlier calls stay pending. *)
Definition showError (message : jsstring) : M unit :=
  modify (fun w => set_timers (timers w ++ [now w + 5000]) (set_mmError (Some message) w)).

(** The row built for one movie by the [forEach] body of [renderMovies]. *)
Definition movieElement (movie : Movie) : Node :=
  MovieItem
    (Js.or_string (m_title movie) "(Untitled)")
    (" (" ++ (if Js.truthy_number (m_year movie)
              then match m_year movie with Some y => Js.string_of_Z y | None => "" end
              else "N/A")
          ++ ") - " ++ Js.or_string (m_genre movie) "Unknown")
    (m_id movie, m_title movie, m_year movie, m_genre movie)
    (m_id movie).

(** [renderMovies(moviesToDisplay)] *)
Definition renderMovies (moviesToDisplay : list Movie) : M unit :=
  match moviesToDisplay with
  | [] => modify (set_movieList [Paragraph "No movies found matching your criteria."])
  | _ :: _ => modify (set_movieList (map movieElement moviesToDisplay))
  end.

(** The predicate of the [filter] call in [filterMovies], for the
    normalised query [q]. *)
Definition matches {L : Js.CaseMapping} (q : jsstring) (m : Movie) : bool :=
  let title := Js.toLowerCase (Js.or_string (m_title m) "") in
  let genre := Js.toLowerCase (Js.or_string (m_genre m) "") in
  (Js.includes title q || Js.includes genre q)%bool.

(** [filterMovies(query)]; it reads the cache and changes nothing.  On a
    jsstring, [query || ''] is the jsstring itself. *)
Definition filterMovies {L : Js.CaseMapping} (query : jsstring) (w : World)
  : list Movie :=
  let q := Js.toLowerCase (Js.trim query) in
  if negb (Js.truthy_string q) then allMovies w
  else filter (matches q) (allMovies w).

(** The [input] listener of the search box; [value] is [e.target.value]. *)
Definition onSearchInput {L : Js.CaseMapping} (value : jsstring) : M unit :=
  modify (set_searchValue value) ;;
  filtered <- gets (filterMovies value) ;;
  renderMovies filtered.

(** [fetchMovies()] up to the request. *)
Definition fetchMovies : M unit :=
  fetch (mkRequest GET API_URL None).

(** The [then] / [catch] chain of [fetchMovies]; a decoded body that is not
    an array is [None]. *)
Definition fetchMovies_then (r : FetchResult (option (list Movie))) : M unit :=
  try_catch
    (response <- await r ;;
     movies <- (if negb (ok response)
                then throw ("Server returned " ++ Js.string_of_Z (status response))
                else res_json response) ;;
     modify (set_allMovies (match movies with Some l => l | None => [] end)) ;;
     cache <- gets allMovies ;;
     renderMovies cache)
    (fun message => showError ("Error fetching movies: " ++ message)).

(** The cache after a successful PATCH: line 93 of the script. *)
Definition replaceById (id : option ident) (updated : Movie) (cache : list Movie)
  : list Movie :=
  map (fun m => if strict_eq (m_id m) id then updated else m) cache.

(** The cache after a successful DELETE: line 105. *)
Definition removeById (id : option ident) (cache : list Movie) : list Movie :=
  filter (fun m => negb (strict_eq (m_id m) id)) cache.

(** The cache after a successful POST: line 151, [allMovies.push(created)]. *)
Definition push (created : Movie) (cache : list Movie) : list Movie :=
  cache ++ [created].

(** [editMoviePrompt(id, currentTitle, currentYear, currentGenre)] up to the
    PATCH request.  The result tells whether a request is in flight. *)
Definition editMoviePrompt (u : User) (id : option ident)
    (currentTitle : option jsstring) (currentYear : option Z)
    (currentGenre : option jsstring) : M bool :=
  match id with
  | None => showError "Cannot edit: missing id" ;; ret false
  | Some _ =>
      title <- window_prompt u "Title:"
                 (match currentTitle with Some t => t | None => "" end) ;;
      match title with
      | None => ret false
      | Some title =>
          yearInput <- window_prompt u "Release Year:"
                         (if Js.truthy_number currentYear
                          then match currentYear with
                               | Some y => Js.string_of_Z y
                               | None => ""
                               end
                          else "") ;;
          match yearInput with
          | None => ret false
          | Some yearInput =>
              let year := Js.or_undefined (Js.parseInt yearInput) in
              answered <- window_prompt u "Genre:" (Js.or_string currentGenre "") ;;
              let genre := Js.or_string answered "" in
              let payload :=
                mkPayload (Js.trim (Js.or_string (Some title) "")) year
                          (Js.trim (Js.or_string (Some genre) "")) in
              fetch (mkRequest PATCH (API_URL ++ "/" ++ show_id id) (Some payload)) ;;
              ret true
          end
      end
  end.

(** The [then] / [catch] chain of [editMoviePrompt]. *)
Definition editMoviePrompt_then {L : Js.CaseMapping} (id : option ident)
    (r : FetchResult Movie) : M unit :=
  try_catch
    (res <- await r ;;
     updated <- (if negb (ok res)
                 then throw ("Update failed: " ++ Js.string_of_Z (status res))
                 else res_json res) ;;
     modify (fun w => set_allMovies (replaceById id updated (allMovies w)) w) ;;
     value <- gets searchValue ;;
     filtered <- gets (filterMovies value) ;;
     renderMovies filtered)
    showError.

(** [deleteMovie(id)] up to the DELETE request. *)
Definition deleteMovie (u : User) (id : option ident) : M bool :=
  confirmed <- window_confirm u "Delete this movie?" ;;
  if negb confirmed then ret false
  else
    fetch (mkRequest DELETE (API_URL ++ "/" ++ show_id id) None) ;;
    ret true.

(** [deleteMovie] from the await on. *)
Definition deleteMovie_then (id : option ident) (r : FetchResult unit) : M unit :=
  try_catch
    (res <- await r ;;
     (if negb (ok res)
      then throw ("Delete failed: " ++ Js.string_of_Z (status res))
      else ret tt) ;;
     modify (fun w => set_allMovies (removeById id (allMovies w)) w) ;;
     cache <- gets allMovies ;;
     renderMovies cache)
    showError.

(** The [submit] listener of the add form up to the POST request; the
    arguments are the values of the inputs [title], [genre] and [year]. *)
Definition onSubmit (titleValue genreValue yearVal : jsstring) : M bool :=
  let title := Js.trim (Js.or_string (Some titleValue) "") in
  let genre := Js.trim (Js.or_string (Some genreValue) "") in
  let year := if Js.truthy_string yearVal then Some (Js.parseInt yearVal) else None in
  if (negb (Js.truthy_string title) ||
      negb (match year with Some n => Js.truthy n | None => false end))%bool
  then showError "Please provide Title and Year" ;; ret false
  else
    fetch (mkRequest POST API_URL (Some (mkPayload title year genre))) ;;
    ret true.

(** The [submit] listener from the await on. *)
Definition onSubmit_then (r : FetchResult Movie) : M unit :=
  try_catch
    (res <- await r ;;
     (if negb (ok res)
      then throw ("Add failed: " ++ Js.string_of_Z (status res))
      else ret tt) ;;
     created <- res_json res ;;
     modify (fun w => set_allMovies (push created (allMovies w)) w) ;;
     cache <- gets allMovies ;;
     renderMovies cache ;;
     modify (log FormReset))
    showError.

(** A click on the Edit button of a rendered node. *)
Definition clickEdit (u : User) (n : Node) : M bool :=
  match n with
  | MovieItem _ _ (id, title, year, genre) _ => editMoviePrompt u id title year genre
  | Paragraph _ => ret false
  end.

(** A click on the Delete button of a rendered node. *)
Definition clickDelete (u : User) (n : Node) : M bool :=
  match n with
  | MovieItem _ _ _ id => deleteMovie u id
  | Paragraph _ => ret false
  end.

(** Whole flows: the handler, then (when a request went out) the rest of
    it on the request's outcome, nothing else happening in between. *)
Definition editFlow {L : Js.CaseMapping} (u : User) (m : Movie)
    (r : FetchResult Movie) : M unit :=
  pending <- clickEdit u (movieElement m) ;;
  if pending : bool then editMoviePrompt_then (m_id m) r else ret tt.

Definition deleteFlow (u : User) (id : option ident) (r : FetchResult unit) : M unit :=
  pending <- deleteMovie u id ;;
  if pending : bool then deleteMovie_then id r else ret tt.

Definition addFlow (titleValue genreValue yearVal : jsstring) (r : FetchResult Movie)
  : M unit :=
  pending <- onSubmit titleValue genreValue yearVal ;;
  if pending : bool then onSubmit_then r else ret tt.

(** ** Observations used in the statements *)

(** The requests that have left the page, oldest first. *)
Fixpoint requests (t : list Event) : list Request :=
  match t with
  | [] => []
  | Fetched r :: t' => r :: requests t'
  | _ :: t' => requests t'
  end.

(** The prompts that have been shown, oldest first. *)
Fixpoint prompts (t : list Event) : list (jsstring * jsstring) :=
  match t with
  | [] => []
  | Prompted m d :: t' => (m, d) :: prompts t'
  | _ :: t' => prompts t'
  end.

(** Number of Edit / Delete buttons in a rendered list. *)
Definition triggers (l : list Node) : nat :=
  list_sum (map (fun n => match n with MovieItem _ _ _ _ => 2%nat | Paragraph _ => 0%nat end) l).


(** Number of cache entries carrying the id [id]. *)
Definition occurrences (id : option ident) (cache : list Movie) : nat :=
  List.length (filter (fun m => strict_eq (m_id m) id) cache).

(** [s] occurs in [t]: the declarative reading of "is a substring of". *)
Definition Substring (s t : jsstring) : Prop :=
  exists a b, t = a ++ s ++ b.

(** [l1] is [l2] with some entries left out, order kept. *)
Inductive Subsequence {A : Type} : list A -> list A -> Prop :=
| sub_nil : Subsequence [] []
| sub_skip x l1 l2 : Subsequence l1 l2 -> Subsequence l1 (x :: l2)
| sub_keep x l1 l2 : Subsequence l1 l2 -> Subsequence (x :: l1) (x :: l2).

(** A string made of white space only (possibly empty). *)
Fixpoint blank (s : jsstring) : bool :=
  match s with
  | EmptyString => true
  | String c r => (Js.is_whitespace c && blank r)%bool
  end.

(** A page that has just been loaded with the cache [cache] rendered. *)
Definition page (cache : list Movie) : World :=
  exec (renderMovies cache) (mkWorld cache [] "" None [] 0 []).

Definition dune : Movie :=
  mkMovie (Some (IdNum 1)) (Some "Dune") (Some 2021) (Some "Sci-Fi").
Definition amelie : Movie :=
  mkMovie (Some (IdNum 2)) (Some "Amelie") (Some 2001) (Some "Romance").

(** A user who types the same text into every prompt and accepts every
    confirmation. *)
Definition typing (s : jsstring) : User := mkUser (fun _ _ => Some s) (fun _ => true).

(** ** The contracts of the specification, as predicates *)

(** The reading of the filter contract in which the query is lower-cased
    but not trimmed before it is searched for. *)
Definition FilterByRawQuery {L : Js.CaseMapping} : Prop :=
  forall (w : World) (query : jsstring) (e : Movie),
    Js.trim query <> "" ->
    (In e (filterMovies query w) <->
     In e (allMovies w) /\
     (Substring (Js.toLowerCase query) (Js.toLowerCase (Js.or_string (m_title e) "")) \/
      Substring (Js.toLowerCase query) (Js.toLowerCase (Js.or_string (m_genre e) "")))).

(** The cache an update leaves when the server answers 200 with [m] to the
    PATCH of [m]'s own id, and the cache a create leaves when the server
    answers 201 with [m]. *)
Definition cacheAfterUpdate {L : Js.CaseMapping} (m : Movie) (cache : list Movie)
  : list Movie :=
  allMovies (exec (editMoviePrompt_then (m_id m) (Resolved (mkResponse 200 (inr m))))
                  (page cache)).

Definition cacheAfterCreate (m : Movie) (cache : list Movie) : list Movie :=
  allMovies (exec (onSubmit_then (Resolved (mkResponse 201 (inr m)))) (page cache)).

(** The upsert contract of the specification, for an operation on caches:
    replace where the id is present, append where it is not. *)
Definition UpsertContract (upsert : Movie -> list Movie -> list Movie) : Prop :=
  forall (cache : list Movie) (m : Movie),
    (occurrences (m_id m) cache <> 0%nat ->
     List.length (upsert m cache) = List.length cache /\
     In m (upsert m cache) /\
     (forall e, In e (upsert m cache) -> m_id e = m_id m -> e = m)) /\
    (occurrences (m_id m) cache = 0%nat ->
     List.length (upsert m cache) = S (List.length cache) /\
     In m (upsert m cache)).

(** The delete contract of the specification with "one less if present". *)
Definition DeleteContract : Prop :=
  forall (w : World) (u : User) (id : option ident) (res : Response unit),
    accepts u "Delete this movie?" = true -> ok res = true ->
    let w' := exec (deleteFlow u id (Resolved res)) w in
    occurrences id (allMovies w') = 0%nat /\
    (occurrences id (allMovies w) <> 0%nat ->
     S (List.length (allMovies w')) = List.length (allMovies w)) /\
    (occurrences id (allMovies w) = 0%nat ->
     List.length (allMovies w') = List.length (allMovies w)) /\
    movieList w' = movieList (exec (renderMovies (allMovies w')) w).

(** A user who retitles, keeps the year and cancels the genre prompt. *)
Definition cancelsGenre : User :=
  mkUser (fun message _ =>
            if Js.eqb message "Title:" then Some "Dune"
            else if Js.eqb message "Release Year:" then Some "2021"
            else None)
         (fun _ => true).


(** ** Further observations *)

(** The ids of the cache, in cache order. *)
Definition ids (cache : list Movie) : list (option ident) := map m_id cache.

(** The query as [filterMovies] searches for it. *)
Definition normalised {L : Js.CaseMapping} (query : jsstring) : jsstring :=
  Js.toLowerCase (Js.trim query).

(** Why a settled request counts as refused, if it does: the promise was
    rejected, or the status is not a success ([what] is the handler's
    prefix of the message). *)
Definition refused {A} (what : jsstring) (r : FetchResult A) : option jsstring :=
  match r with
  | Rejected e => Some e
  | Resolved res =>
      if ok res then None else Some (what ++ Js.string_of_Z (status res))
  end.

(** Why a settled request fails a handler that also decodes the body. *)
Definition failure {A} (what : jsstring) (r : FetchResult A) : option jsstring :=
  match r with
  | Rejected e => Some e
  | Resolved res =>
      if ok res
      then match json res with inl e => Some e | inr _ => None end
      else Some (what ++ Js.string_of_Z (status res))
  end.

(** A user who leaves every prompt as it is pre-filled and presses OK. *)
Definition acceptsDefaults : User := mkUser (fun _ default => Some default) (fun _ => true).

(** A user who dismisses every dialog. *)
Definition dismisses : User := mkUser (fun _ _ => None) (fun _ => false).

(** The last code unit of a string, if any. *)
Fixpoint lastChar (s : jsstring) : option codeunit :=
  match s with
  | EmptyString => None
  | String c EmptyString => Some c
  | String _ r => lastChar r
  end.

(** No white space at either end. *)
Definition trimmed (s : jsstring) : bool :=
  match s with
  | EmptyString => true
  | String c _ =>
      (negb (Js.is_whitespace c) &&
       match lastChar s with Some d => negb (Js.is_whitespace d) | None => true end)%bool
  end.

(** The number written by the decimal digits [d], most significant first,
    after the digits already read gave [acc]. *)
Fixpoint uintValue (d : Decimal.uint) (acc : Z) : Z :=
  match d with
  | Decimal.Nil => acc
  | Decimal.D0 d' => uintValue d' (10 * acc)
  | Decimal.D1 d' => uintValue d' (10 * acc + 1)
  | Decimal.D2 d' => uintValue d' (10 * acc + 2)
  | Decimal.D3 d' => uintValue d' (10 * acc + 3)
  | Decimal.D4 d' => uintValue d' (10 * acc + 4)
  | Decimal.D5 d' => uintValue d' (10 * acc + 5)
  | Decimal.D6 d' => uintValue d' (10 * acc + 6)
  | Decimal.D7 d' => uintValue d' (10 * acc + 7)
  | Decimal.D8 d' => uintValue d' (10 * acc + 8)
  | Decimal.D9 d' => uintValue d' (10 * acc + 9)
  end.

(** Every pending timeout falls due within 5000 ms: what [showError], the
    only caller of [setTimeout], maintains. *)
Definition timersBounded (w : World) : Prop :=
  Forall (fun d => d <= now w + 5000) (timers w).

(** Evaluates [Js.digit_of] on a literal character in the goal. *)
Ltac eval_digit :=
  match goal with
  | |- context [Js.digit_of ?c] =>
      let v := eval vm_compute in (Js.digit_of c) in
      change (Js.digit_of c) with v
  end.

(** Closed runs of the script below are on ASCII data and take the
    ASCII case mapping; every general statement is about an arbitrary
    [Js.CaseMapping]. *)
#[global] Existing Instance asciiCase.

(** ** Sanity checks of the primitives *)

Example trim_demo :
  Js.trim "  Sci Fi   " = "Sci Fi" /\
  Js.trim (String 160 (String 8232 (String 65279 " x "))) = "x".
Proof. split; reflexivity. Qed.

Example lower_demo {L : Js.CaseMapping} : Js.toLowerCase "Sci-Fi 2" = "sci-fi 2".
Proof. now rewrite Js.toLowerCase_ascii. Qed.

Example includes_demo :
  Js.includes "sci-fi" "sci" = true /\ Js.includes "romance" "sci" = false /\
  Js.includes "abc" "" = true.
Proof. repeat split. Qed.

Example parseInt_demo :
  Js.parseInt " 2021abc" = Js.Num 2021 /\ Js.parseInt "-7" = Js.Num (-7) /\
  Js.parseInt "abc" = Js.NaN /\ Js.parseInt "" = Js.NaN /\ Js.parseInt "0" = Js.Num 0 /\
  Js.parseInt "9007199254740992" = Js.Num 9007199254740992 /\
  Js.parseInt "9007199254740993" = Js.Rounded 9007199254740993.
Proof. repeat split. Qed.

Example string_of_Z_demo :
  Js.string_of_Z 500 = "500" /\ Js.string_of_Z 0 = "0" /\ Js.string_of_Z (-3) = "-3".
Proof. repeat split. Qed.

(** ** Strings: [includes] decides [Substring] *)

Lemma append_empty (s : jsstring) : s ++ "" = s.
Proof. induction s as [|c s IH]; simpl; [reflexivity | now rewrite IH]. Qed.

Lemma startsWith_iff (s q : jsstring) :
  Js.startsWith s q = true <-> exists b, s = q ++ b.
Proof.
  revert s; induction q as [|c q IH]; intros [|a s]; simpl.
  - split; [intros _; now exists "" | reflexivity].
  - split; [intros _; now exists (String a s) | reflexivity].
  - split; [discriminate | intros [b Hb]; discriminate].
  - rewrite andb_true_iff, IH. split.
    + intros [Hc [b ->]]. apply N.eqb_eq in Hc as ->. now exists b.
    + intros [b Hb]. injection Hb as -> ->. split; [apply N.eqb_refl | now exists b].
Qed.

Lemma includes_iff (s q : jsstring) :
  Js.includes s q = true <-> Substring q s.
Proof.
  unfold Substring. induction s as [|c s IH].
  - cbn [Js.includes]. rewrite orb_false_r, startsWith_iff. split.
    + intros [b Hb]. now exists "", b.
    + intros [a [b Hab]]. destruct a; [now exists b | discriminate].
  - cbn [Js.includes]. rewrite orb_true_iff, IH, startsWith_iff. split.
    + intros [[b Hb] | [a [b Hab]]].
      * now exists "", b.
      * exists (String c a), b. simpl. now rewrite Hab.
    + intros [a [b Hab]]. destruct a as [|x a].
      * left. now exists b.
      * right. simpl in Hab. injection Hab as _ Hs. now exists a, b.
Qed.

Lemma includes_suffix (a s : jsstring) : Js.includes (a ++ s) s = true.
Proof. apply includes_iff. exists a, "". now rewrite append_empty. Qed.

Lemma toLowerCase_empty {L : Js.CaseMapping} (s : jsstring) :
  Js.toLowerCase s = "" -> s = "".
Proof. apply Js.toLowerCase_nonempty. Qed.

Lemma toLowerCase_of_empty {L : Js.CaseMapping} : Js.toLowerCase "" = "".
Proof. now rewrite Js.toLowerCase_ascii. Qed.

Lemma truthy_string_false (s : jsstring) : Js.truthy_string s = false <-> s = "".
Proof. destruct s; simpl; split; congruence. Qed.

Lemma trimStart_blank (s : jsstring) : blank s = true -> Js.trimStart s = "".
Proof.
  induction s as [|c s IH]; simpl; [reflexivity |].
  intros H. apply andb_true_iff in H as [Hc Hs]. rewrite Hc. now apply IH.
Qed.

Lemma trim_blank (s : jsstring) : blank s = true -> Js.trim s = "".
Proof. intros H. unfold Js.trim. now rewrite trimStart_blank. Qed.

Lemma eqb_eq (a b : jsstring) : Js.eqb a b = true <-> a = b.
Proof.
  revert b. induction a as [|x a IH]; intros [|y b]; simpl; split;
    try congruence; try discriminate.
  - intros H. apply andb_true_iff in H as [Hx Hab].
    apply N.eqb_eq in Hx. apply IH in Hab. congruence.
  - intros H. injection H as -> ->. rewrite N.eqb_refl. now apply IH.
Qed.

(** ** Lists: what [filter] and [map] keep *)

Lemma filter_Subsequence {A} (p : A -> bool) (l : list A) :
  Subsequence (filter p l) l.
Proof.
  induction l as [|x l IH]; simpl.
  - constructor.
  - destruct (p x); now constructor.
Qed.

Lemma filter_split_length {A} (p : A -> bool) (l : list A) :
  (List.length (filter (fun x => negb (p x)) l) + List.length (filter p l)
   = List.length l)%nat.
Proof.
  induction l as [|x l IH]; simpl; [reflexivity |].
  destruct (p x); simpl; lia.
Qed.

Lemma filter_none_id {A} (p : A -> bool) (l : list A) :
  List.length (filter p l) = 0%nat -> filter (fun x => negb (p x)) l = l.
Proof.
  induction l as [|x l IH]; simpl; [reflexivity |].
  destruct (p x); simpl; [discriminate |]. intros H. now rewrite IH.
Qed.

Lemma strict_eq_refl (i : option ident) : strict_eq i i = true.
Proof.
  destruct i as [[n|s]|]; simpl;
    [apply Z.eqb_refl | now apply eqb_eq | reflexivity].
Qed.

Lemma strict_eq_eq (i j : option ident) : strict_eq i j = true <-> i = j.
Proof.
  split; [| intros ->; apply strict_eq_refl].
  destruct i as [[n|s]|], j as [[m|t]|]; simpl; try discriminate; try reflexivity.
  - intros H. apply Z.eqb_eq in H. now subst.
  - intros H. apply eqb_eq in H. now subst.
Qed.

(** ** The filter engine *)

Lemma matches_iff {L : Js.CaseMapping} (q : jsstring) (m : Movie) :
  matches q m = true <->
  Substring q (Js.toLowerCase (Js.or_string (m_title m) "")) \/
  Substring q (Js.toLowerCase (Js.or_string (m_genre m) "")).
Proof. unfold matches. now rewrite orb_true_iff, !includes_iff. Qed.

Lemma filterMovies_nonblank {L : Js.CaseMapping} (query : jsstring) (w : World) :
  Js.trim query <> "" ->
  filterMovies query w = filter (matches (Js.toLowerCase (Js.trim query))) (allMovies w).
Proof.
  intros H. unfold filterMovies.
  destruct (Js.toLowerCase (Js.trim query)) eqn:E; [| reflexivity].
  now apply toLowerCase_empty in E.
Qed.

Lemma filter_same {A} (p p' : A -> bool) (l : list A) :
  (forall x, p x = true <-> p' x = true) -> filter p l = filter p' l.
Proof.
  intros H. apply filter_ext. intros x. specialize (H x).
  destruct (p x), (p' x); try reflexivity.
  - symmetry. now apply H.
  - now apply H.
Qed.

(** C2, as stated, fails, whatever the case mapping of the runtime: the
    query [" dune"] is not blank and selects the movie titled "Dune",
    although [" dune"] (with its leading space) occurs neither in "dune"
    nor in "sci-fi".  The script searches for the trimmed query. *)
Lemma filter_raw_query_counterexample :
  ~ exists L : Js.CaseMapping, @FilterByRawQuery L.
Proof.
  intros [L H].
  assert (Hin : In dune (filterMovies " dune" (page [dune; amelie]))).
  { unfold filterMovies. change (Js.trim " dune") with "dune".
    rewrite (Js.toLowerCase_ascii "dune" eq_refl). cbn. unfold matches. cbn.
    rewrite (Js.toLowerCase_ascii "Dune" eq_refl). cbn. now left. }
  apply (H (page [dune; amelie]) " dune" dune) in Hin; [| discriminate].
  destruct Hin as [_ Hs]. cbn in Hs.
  rewrite (Js.toLowerCase_ascii " dune" eq_refl),
    (Js.toLowerCase_ascii "Dune" eq_refl), (Js.toLowerCase_ascii "Sci-Fi" eq_refl) in Hs.
  destruct Hs as [Hs | Hs]; apply includes_iff in Hs; discriminate Hs.
Qed.

(** C2 (amended): for a query that is not blank, an entry is in
    [filterMovies query] exactly when it is in the cache and the trimmed,
    lower-cased query occurs in its lower-cased title or genre (a missing
    title or genre counting as the empty string); the result is a
    subsequence of the cache, in cache order, and it is the cache filtered
    by that condition, every occurrence of a matching entry being kept. *)
Theorem filterMovies_selects_matches {L : Js.CaseMapping} (w : World) (query : jsstring) :
  Js.trim query <> "" ->
  let q := Js.toLowerCase (Js.trim query) in
  (forall e : Movie,
     In e (filterMovies query w) <->
     In e (allMovies w) /\
     (Substring q (Js.toLowerCase (Js.or_string (m_title e) "")) \/
      Substring q (Js.toLowerCase (Js.or_string (m_genre e) "")))) /\
  Subsequence (filterMovies query w) (allMovies w) /\
  (forall selects : Movie -> bool,
     (forall e : Movie,
        selects e = true <->
        Substring q (Js.toLowerCase (Js.or_string (m_title e) "")) \/
        Substring q (Js.toLowerCase (Js.or_string (m_genre e) ""))) ->
     filterMovies query w = filter selects (allMovies w)).
Proof.
  intros H q. rewrite (filterMovies_nonblank query w H). fold q. split; [| split].
  - intros e. now rewrite filter_In, matches_iff.
  - apply filter_Subsequence.
  - intros selects Hsel. apply filter_same. intros e.
    now rewrite matches_iff, Hsel.
Qed.

Lemma filterMovies_selects_matches_witness :
  Js.trim " SCI " <> "" /\
  (In dune (filterMovies " SCI " (page [dune; amelie])) <->
   In dune [dune; amelie] /\
   (Substring "sci" (Js.toLowerCase (Js.or_string (m_title dune) "")) \/
    Substring "sci" (Js.toLowerCase (Js.or_string (m_genre dune) "")))).
Proof.
  assert (Hq : Js.trim " SCI " <> "") by discriminate.
  split; [exact Hq |].
  destruct (filterMovies_selects_matches (page [dune; amelie]) " SCI " Hq) as [Hmem _].
  exact (Hmem dune).
Defined.

(** The scenario of the specification: searching "sci" keeps Dune only. *)
Example filter_scenario :
  filterMovies "sci" (page [dune; amelie]) = [dune].
Proof. reflexivity. Qed.

(** C3: a query that is empty or consists of white space only (any of the
    language's white-space or line-terminator characters) returns the
    cache itself, same entries in the same order. *)
Theorem filterMovies_blank_identity {L : Js.CaseMapping} (w : World) (query : jsstring) :
  blank query = true -> filterMovies query w = allMovies w.
Proof.
  intros H. unfold filterMovies.
  now rewrite (trim_blank query H), toLowerCase_of_empty.
Qed.

Lemma filterMovies_blank_identity_witness :
  let nbsp := String 160 (String 9 (String 8232 (String 65279 " "))) in
  blank "   " = true /\ blank nbsp = true /\
  filterMovies "   " (page [dune; amelie]) = [dune; amelie] /\
  filterMovies nbsp (page [dune; amelie]) = [dune; amelie] /\
  filterMovies "" (page [dune; amelie]) = [dune; amelie].
Proof.
  intros nbsp. split; [reflexivity |]. split; [reflexivity |]. split; [| split].
  - exact (filterMovies_blank_identity (page [dune; amelie]) "   " eq_refl).
  - exact (filterMovies_blank_identity (page [dune; amelie]) nbsp eq_refl).
  - reflexivity.
Defined.

(** ** What the handlers do to the page *)

Lemma renderMovies_allMovies (l : list Movie) (w : World) :
  allMovies (exec (renderMovies l) w) = allMovies w.
Proof. destruct l; reflexivity. Qed.

Lemma renderMovies_trace (l : list Movie) (w : World) :
  trace (exec (renderMovies l) w) = trace w.
Proof. destruct l; reflexivity. Qed.

Lemma renderMovies_movieList (l : list Movie) (w w' : World) :
  movieList (exec (renderMovies l) w) = movieList (exec (renderMovies l) w').
Proof. destruct l; reflexivity. Qed.

Lemma renderMovies_normal (l : list Movie) (w : World) :
  renderMovies l w = (Normal tt, exec (renderMovies l) w).
Proof. destruct l; reflexivity. Qed.

(** A successful PATCH: the cache is mapped through [replaceById] and the
    view filtered by the search box is drawn. *)
Lemma editMoviePrompt_then_ok {L : Js.CaseMapping} (id : option ident) (res : Response Movie)
    (updated : Movie) (w : World) :
  ok res = true -> json res = inr updated ->
  let w1 := set_allMovies (replaceById id updated (allMovies w)) w in
  exec (editMoviePrompt_then id (Resolved res)) w
  = exec (renderMovies (filterMovies (searchValue w) w1)) w1.
Proof.
  intros Hok Hjson w1.
  unfold exec, editMoviePrompt_then, try_catch, bind, await, res_json, ret, gets, modify.
  rewrite Hok, Hjson. cbn -[renderMovies filterMovies].
  fold w1. now rewrite renderMovies_normal.
Qed.

(** A successful DELETE: the cache is filtered by [removeById] and the whole
    cache is drawn. *)
Lemma deleteMovie_then_ok (id : option ident) (res : Response unit) (w : World) :
  ok res = true ->
  let w1 := set_allMovies (removeById id (allMovies w)) w in
  exec (deleteMovie_then id (Resolved res)) w = exec (renderMovies (allMovies w1)) w1.
Proof.
  intros Hok w1.
  unfold exec, deleteMovie_then, try_catch, bind, await, ret, gets, modify, throw.
  rewrite Hok. cbn -[renderMovies]. fold w1. now rewrite renderMovies_normal.
Qed.

(** A successful POST: the created movie is pushed, the whole cache is
    drawn and the form is reset. *)
Lemma onSubmit_then_ok (res : Response Movie) (created : Movie) (w : World) :
  ok res = true -> json res = inr created ->
  let w1 := set_allMovies (push created (allMovies w)) w in
  exec (onSubmit_then (Resolved res)) w
  = log FormReset (exec (renderMovies (allMovies w1)) w1).
Proof.
  intros Hok Hjson w1.
  unfold exec, onSubmit_then, try_catch, bind, await, res_json, ret, gets, modify, throw.
  rewrite Hok, Hjson. cbn -[renderMovies]. fold w1. now rewrite renderMovies_normal.
Qed.

(** A response with a failure status: nothing but [showError] happens. *)
Lemma editMoviePrompt_then_fail {L : Js.CaseMapping} (id : option ident) (res : Response Movie) (w : World) :
  ok res = false ->
  exec (editMoviePrompt_then id (Resolved res)) w
  = exec (showError ("Update failed: " ++ Js.string_of_Z (status res))) w.
Proof.
  intros Hok.
  unfold exec, editMoviePrompt_then, try_catch, bind, await, ret, throw.
  now rewrite Hok.
Qed.

Lemma deleteMovie_then_fail (id : option ident) (res : Response unit) (w : World) :
  ok res = false ->
  exec (deleteMovie_then id (Resolved res)) w
  = exec (showError ("Delete failed: " ++ Js.string_of_Z (status res))) w.
Proof.
  intros Hok.
  unfold exec, deleteMovie_then, try_catch, bind, await, ret, throw.
  now rewrite Hok.
Qed.

Lemma onSubmit_then_fail (res : Response Movie) (w : World) :
  ok res = false ->
  exec (onSubmit_then (Resolved res)) w
  = exec (showError ("Add failed: " ++ Js.string_of_Z (status res))) w.
Proof.
  intros Hok.
  unfold exec, onSubmit_then, try_catch, bind, await, ret, throw.
  now rewrite Hok.
Qed.

(** The parts of the handlers that run before the request leave the cache
    alone. *)
Lemma editMoviePrompt_keeps_cache u id t y g (w : World) :
  allMovies (exec (editMoviePrompt u id t y g) w) = allMovies w.
Proof.
  unfold exec, editMoviePrompt, bind, window_prompt.
  destruct id; [| reflexivity]. cbn.
  destruct (answer u "Title:" _); [| reflexivity]. cbn.
  destruct (answer u "Release Year:" _); reflexivity.
Qed.

Lemma deleteMovie_keeps_cache u id (w : World) :
  allMovies (exec (deleteMovie u id) w) = allMovies w.
Proof.
  unfold exec, deleteMovie, bind, window_confirm. cbn.
  destruct (accepts u _); reflexivity.
Qed.

Lemma onSubmit_keeps_cache t g y (w : World) :
  allMovies (exec (onSubmit t g y) w) = allMovies w.
Proof.
  unfold exec, onSubmit.
  destruct (_ || _)%bool; reflexivity.
Qed.

(** ** The cache after create, update and delete *)

Lemma replaceById_length id updated cache :
  List.length (replaceById id updated cache) = List.length cache.
Proof. apply length_map. Qed.

Lemma replaceById_nth id updated cache (k : nat) :
  nth_error (replaceById id updated cache) k
  = option_map (fun e => if strict_eq (m_id e) id then updated else e)
               (nth_error cache k).
Proof. apply nth_error_map. Qed.

Lemma replaceById_absent id updated cache :
  occurrences id cache = 0%nat -> replaceById id updated cache = cache.
Proof.
  unfold occurrences, replaceById.
  induction cache as [|e cache IH]; simpl; [reflexivity |].
  destruct (strict_eq (m_id e) id); simpl; [discriminate |].
  intros H. now rewrite IH.
Qed.

Lemma replaceById_present id updated cache :
  occurrences id cache <> 0%nat -> In updated (replaceById id updated cache).
Proof.
  unfold occurrences, replaceById.
  induction cache as [|e cache IH]; simpl; [congruence |].
  destruct (strict_eq (m_id e) id); simpl; [now left |].
  intros H. right. now apply IH.
Qed.

Lemma replaceById_unique id updated cache (e : Movie) :
  m_id updated = id -> In e (replaceById id updated cache) -> m_id e = id ->
  e = updated.
Proof.
  intros Hup Hin He. unfold replaceById in Hin.
  apply in_map_iff in Hin as [x [Hx _]].
  destruct (strict_eq (m_id x) id) eqn:E; [now symmetry |].
  subst e. rewrite He, strict_eq_refl in E. discriminate.
Qed.

Lemma removeById_clean id cache (e : Movie) :
  In e (removeById id cache) -> strict_eq (m_id e) id = false.
Proof.
  unfold removeById. rewrite filter_In. intros [_ H].
  now apply negb_true_iff in H.
Qed.

Lemma removeById_length id cache :
  (List.length (removeById id cache) + occurrences id cache = List.length cache)%nat.
Proof. apply (filter_split_length (fun m => strict_eq (m_id m) id)). Qed.

(** C1, as stated, fails on both paths, whatever the case mapping of the
    runtime.  The update path never appends: an answer for id 2 arriving
    when the cache holds id 1 only leaves the cache as it was.  The create
    path always appends: a created movie whose id is already cached makes
    the cache one longer. *)
Lemma upsert_contract_counterexample :
  ~ (exists L : Js.CaseMapping, UpsertContract (@cacheAfterUpdate L)) /\
  ~ UpsertContract cacheAfterCreate.
Proof.
  split.
  - intros [L H]. destruct (H [dune] amelie) as [_ Hnew].
    destruct (Hnew eq_refl) as [Hlen _]. unfold cacheAfterUpdate in Hlen.
    rewrite (editMoviePrompt_then_ok (m_id amelie) (mkResponse 200 (inr amelie)) amelie
               (page [dune]) eq_refl eq_refl), renderMovies_allMovies in Hlen.
    discriminate Hlen.
  - intros H. destruct (H [dune] dune) as [Hold _].
    assert (Hocc : occurrences (m_id dune) [dune] <> 0%nat) by discriminate.
    destruct (Hold Hocc) as [Hlen _]. discriminate Hlen.
Qed.

(** C1 (amended): after a successful update for [id] answered with
    [updated], the cache keeps its size and every entry whose id is [id] is
    replaced in place by [updated], every other entry staying as it is: if
    the id was present, [updated] is in the cache, and is the only entry
    with that id when it carries that id itself; if the id was absent, the
    cache is unchanged and nothing is appended.  After a successful create
    answered with [created], the cache is the old cache with [created]
    appended: one entry longer and containing [created], whether or not its
    id was cached already. *)
Theorem cache_after_update_and_create {L : Js.CaseMapping}
    (w : World) (id : option ident) (ru rc : Response Movie)
    (updated created : Movie) :
  ok ru = true -> json ru = inr updated ->
  ok rc = true -> json rc = inr created ->
  let wu := exec (editMoviePrompt_then id (Resolved ru)) w in
  let wc := exec (onSubmit_then (Resolved rc)) w in
  (List.length (allMovies wu) = List.length (allMovies w) /\
   (forall k, nth_error (allMovies wu) k
              = option_map (fun e => if strict_eq (m_id e) id then updated else e)
                           (nth_error (allMovies w) k)) /\
   (occurrences id (allMovies w) <> 0%nat -> In updated (allMovies wu)) /\
   (m_id updated = id ->
    forall e, In e (allMovies wu) -> m_id e = id -> e = updated) /\
   (occurrences id (allMovies w) = 0%nat -> allMovies wu = allMovies w)) /\
  (allMovies wc = (allMovies w ++ [created])%list /\
   List.length (allMovies wc) = S (List.length (allMovies w)) /\
   In created (allMovies wc)).
Proof.
  intros Hu Hju Hc Hjc wu wc. subst wu wc.
  rewrite (editMoviePrompt_then_ok id ru updated w Hu Hju).
  rewrite (onSubmit_then_ok rc created w Hc Hjc).
  cbn [log allMovies]. rewrite !renderMovies_allMovies. cbn [set_allMovies allMovies].
  repeat split.
  - apply replaceById_length.
  - apply replaceById_nth.
  - apply replaceById_present.
  - intros Hup e. now apply replaceById_unique.
  - apply replaceById_absent.
  - unfold push. rewrite length_app. simpl. lia.
  - unfold push. apply in_or_app. right. now left.
Qed.

Lemma cache_after_update_and_create_witness :
  let dune' := mkMovie (Some (IdNum 1)) (Some "Dune: Part Two") (Some 2024) (Some "Sci-Fi") in
  let arrival := mkMovie (Some (IdNum 3)) (Some "Arrival") (Some 2016) (Some "Sci-Fi") in
  allMovies (exec (editMoviePrompt_then (Some (IdNum 1))
                     (Resolved (mkResponse 200 (inr dune')))) (page [dune; amelie]))
  = [dune'; amelie] /\
  allMovies (exec (onSubmit_then (Resolved (mkResponse 201 (inr arrival))))
                  (page [dune; amelie]))
  = [dune; amelie; arrival].
Proof.
  intros dune' arrival.
  pose proof (cache_after_update_and_create (page [dune; amelie]) (Some (IdNum 1))
                (mkResponse 200 (inr dune')) (mkResponse 201 (inr arrival))
                dune' arrival eq_refl eq_refl eq_refl eq_refl) as [[_ [Hnth _]] [Happ _]].
  split.
  - apply nth_error_ext. intros k. rewrite Hnth.
    destruct k as [|[|[|k]]]; reflexivity.
  - exact Happ.
Defined.

(** C4, as stated, fails on a cache in which an id occurs twice (the add
    handler pushes whatever the server returns, and the initial load takes
    the server's array as it is): every entry with the id goes, so the size
    drops by two. *)
Lemma delete_contract_counterexample : ~ DeleteContract.
Proof.
  intros H.
  pose (remake := mkMovie (Some (IdNum 1)) (Some "Dune") (Some 1984) (Some "Sci-Fi")).
  destruct (H (page [dune; amelie; remake]) (typing "") (Some (IdNum 1))
              (mkResponse 200 (inr tt)) eq_refl eq_refl) as [_ [Hone _]].
  assert (Hocc : occurrences (Some (IdNum 1)) (allMovies (page [dune; amelie; remake]))
                 <> 0%nat) by discriminate.
  specialize (Hone Hocc). discriminate Hone.
Qed.

Lemma deleteFlow_confirmed u id r (w : World) :
  accepts u "Delete this movie?" = true ->
  exec (deleteFlow u id r) w
  = exec (deleteMovie_then id r)
         (log (Fetched (mkRequest DELETE (API_URL ++ "/" ++ show_id id) None))
              (log (AskedConfirm "Delete this movie?") w)).
Proof.
  intros Hyes.
  unfold exec, deleteFlow, deleteMovie, bind, window_confirm, fetch, modify, ret.
  now rewrite Hyes.
Qed.

(** C4 (amended): after a confirmed delete whose request succeeds, the cache
    holds no entry with that id; every entry with another id is kept, in
    order; the size drops by the number of entries that carried the id (by
    exactly one when the id occurred once, by nothing when it was absent);
    and the whole cache, not the filtered view, is drawn. *)
Theorem delete_removes_every_entry_with_id
    (w : World) (u : User) (id : option ident) (res : Response unit) :
  accepts u "Delete this movie?" = true -> ok res = true ->
  let w' := exec (deleteFlow u id (Resolved res)) w in
  (forall e, In e (allMovies w') -> strict_eq (m_id e) id = false) /\
  (forall e, In e (allMovies w) -> strict_eq (m_id e) id = false -> In e (allMovies w')) /\
  Subsequence (allMovies w') (allMovies w) /\
  (List.length (allMovies w') + occurrences id (allMovies w)
   = List.length (allMovies w))%nat /\
  (occurrences id (allMovies w) = 1%nat ->
   S (List.length (allMovies w')) = List.length (allMovies w)) /\
  (occurrences id (allMovies w) = 0%nat -> allMovies w' = allMovies w) /\
  movieList w' = movieList (exec (renderMovies (allMovies w')) w).
Proof.
  intros Hyes Hok w'. subst w'.
  rewrite (deleteFlow_confirmed u id _ w Hyes), (deleteMovie_then_ok id res _ Hok).
  rewrite renderMovies_allMovies. cbn [set_allMovies allMovies log].
  pose proof (removeById_length id (allMovies w)) as Hlen.
  repeat split.
  - intros e. apply removeById_clean.
  - intros e Hin Hid. unfold removeById. apply filter_In. split; [exact Hin |].
    now rewrite Hid.
  - apply filter_Subsequence.
  - exact Hlen.
  - intros H1. lia.
  - intros H0. now apply filter_none_id.
  - apply renderMovies_movieList.
Qed.

(** The scenario of the specification: delete of id 2, confirmed and
    answered 200, leaves Dune alone and one row on the page. *)
Lemma delete_removes_every_entry_with_id_witness :
  let w' := exec (deleteFlow (typing "") (Some (IdNum 2)) (Resolved (mkResponse 200 (inr tt))))
                 (page [dune; amelie]) in
  (forall e, In e (allMovies w') -> strict_eq (m_id e) (Some (IdNum 2)) = false) /\
  allMovies w' = [dune] /\
  movieList w' = [movieElement dune].
Proof.
  intros w'.
  pose proof (delete_removes_every_entry_with_id (page [dune; amelie]) (typing "")
                (Some (IdNum 2)) (mkResponse 200 (inr tt)) eq_refl eq_refl)
    as [Hclean _].
  split; [exact Hclean |]. split; reflexivity.
Defined.

(** ** The edit flow *)

(** C10: the Edit button of a row whose movie has no id shows
    "Cannot edit: missing id" at once and stops: no prompt is shown, no
    request leaves, no request is pending and the cache is as before. *)
Theorem edit_without_id_reports (w : World) (u : User) (m : Movie) :
  m_id m = None ->
  let w' := exec (clickEdit u (movieElement m)) w in
  eval (clickEdit u (movieElement m)) w = Normal false /\
  mmError w' = Some "Cannot edit: missing id" /\
  trace w' = trace w /\
  prompts (trace w') = prompts (trace w) /\
  requests (trace w') = requests (trace w) /\
  allMovies w' = allMovies w /\
  movieList w' = movieList w.
Proof.
  intros Hid w'. subst w'.
  unfold clickEdit, movieElement. rewrite Hid. cbn. repeat split.
Qed.

Lemma edit_without_id_reports_witness :
  let orphan := mkMovie None (Some "Solaris") (Some 1972) None in
  let w' := exec (clickEdit (typing "x") (movieElement orphan)) (page [orphan]) in
  m_id orphan = None /\
  mmError w' = Some "Cannot edit: missing id" /\
  trace w' = [] /\
  allMovies w' = [orphan].
Proof.
  intros orphan w'.
  pose proof (edit_without_id_reports (page [orphan]) (typing "x") orphan eq_refl)
    as [_ [Herr [Htr [_ [_ [Hcache _]]]]]].
  split; [reflexivity |]. split; [exact Herr |]. split; [exact Htr | exact Hcache].
Defined.

Lemma requests_app (a b : list Event) :
  requests (a ++ b) = (requests a ++ requests b)%list.
Proof.
  induction a as [|[] a IH]; simpl; congruence.
Qed.

(** Cancelling the title prompt stops the edit: one prompt shown, nothing
    sent, nothing pending, page state otherwise untouched. *)
Lemma edit_title_cancelled (w : World) (u : User) (i : ident) t y g :
  answer u "Title:" (match t with Some s => s | None => "" end) = None ->
  editMoviePrompt u (Some i) t y g w
  = (Normal false, log (Prompted "Title:" (match t with Some s => s | None => "" end)) w).
Proof.
  intros H. unfold editMoviePrompt, bind, window_prompt. now rewrite H.
Qed.

(** Cancelling the year prompt stops the edit as well. *)
Lemma edit_year_cancelled (w : World) (u : User) (i : ident) t y g title :
  let dt := match t with Some s => s | None => "" end in
  let dy := if Js.truthy_number y
            then match y with Some n => Js.string_of_Z n | None => "" end else "" in
  answer u "Title:" dt = Some title ->
  answer u "Release Year:" dy = None ->
  editMoviePrompt u (Some i) t y g w
  = (Normal false, log (Prompted "Release Year:" dy) (log (Prompted "Title:" dt) w)).
Proof.
  intros dt dy Ht Hy. unfold editMoviePrompt, bind, window_prompt.
  fold dt. rewrite Ht. cbn. fold dy. now rewrite Hy.
Qed.

Lemma edit_cancel_early_sends_nothing (w : World) (u : User) (i : ident) t y g :
  answer u "Title:" (match t with Some s => s | None => "" end) = None \/
  answer u "Release Year:"
         (if Js.truthy_number y
          then match y with Some n => Js.string_of_Z n | None => "" end else "") = None ->
  let w' := exec (editMoviePrompt u (Some i) t y g) w in
  eval (editMoviePrompt u (Some i) t y g) w = Normal false /\
  requests (trace w') = requests (trace w) /\
  allMovies w' = allMovies w.
Proof.
  intros H w'. subst w'. unfold exec, eval.
  destruct (answer u "Title:" (match t with Some s => s | None => "" end)) as [title|] eqn:Ht.
  - destruct H as [H | H]; [discriminate |].
    rewrite (edit_year_cancelled w u i t y g title Ht H). cbn [fst snd log trace allMovies].
    repeat split. rewrite !requests_app. cbn. now rewrite !app_nil_r.
  - rewrite (edit_title_cancelled w u i t y g Ht). cbn [fst snd log trace allMovies].
    repeat split. rewrite requests_app. cbn. now rewrite app_nil_r.
Qed.

(** Cancelling the genre prompt does not stop the edit: [null || ''] turns
    the cancellation into an empty genre, and the PATCH is sent. *)
Lemma edit_genre_cancelled (w : World) (u : User) (i : ident) t y g title yearInput :
  let dt := match t with Some s => s | None => "" end in
  let dy := if Js.truthy_number y
            then match y with Some n => Js.string_of_Z n | None => "" end else "" in
  answer u "Title:" dt = Some title ->
  answer u "Release Year:" dy = Some yearInput ->
  answer u "Genre:" (Js.or_string g "") = None ->
  editMoviePrompt u (Some i) t y g w
  = (Normal true,
     log (Fetched (mkRequest PATCH (API_URL ++ "/" ++ show_id (Some i))
                    (Some (mkPayload (Js.trim (Js.or_string (Some title) ""))
                                     (Js.or_undefined (Js.parseInt yearInput)) ""))))
         (log (Prompted "Genre:" (Js.or_string g ""))
            (log (Prompted "Release Year:" dy) (log (Prompted "Title:" dt) w)))).
Proof.
  intros dt dy Ht Hy Hg. unfold editMoviePrompt, bind, window_prompt.
  fold dt. rewrite Ht. cbn -[API_URL]. fold dy. rewrite Hy. cbn -[API_URL]. now rewrite Hg.
Qed.

(** C5 fails on the third prompt.  Dune's Edit button, title and year
    answered, genre prompt cancelled: the handler still sends the PATCH,
    with an empty genre, and leaves the request pending. *)
Theorem edit_genre_cancel_still_sends :
  let w' := exec (clickEdit cancelsGenre (movieElement dune)) (page [dune; amelie]) in
  answer cancelsGenre "Genre:" "Sci-Fi" = None /\
  eval (clickEdit cancelsGenre (movieElement dune)) (page [dune; amelie]) = Normal true /\
  prompts (trace w')
  = [("Title:", "Dune"); ("Release Year:", "2021"); ("Genre:", "Sci-Fi")] /\
  requests (trace w')
  = [mkRequest PATCH "http://localhost:3000/movies/1"
       (Some (mkPayload "Dune" (Some (Js.Num 2021)) ""))].
Proof. repeat split. Qed.

(** The answer to that request then overwrites the cached genre. *)
Example edit_genre_cancel_applies :
  let stripped := mkMovie (Some (IdNum 1)) (Some "Dune") (Some 2021) (Some "") in
  allMovies (exec (editFlow cancelsGenre dune (Resolved (mkResponse 200 (inr stripped))))
                  (page [dune; amelie]))
  = [stripped; amelie].
Proof. reflexivity. Qed.

(** ** The add form *)

(** C6: a submission whose trimmed title is empty (the title is empty or
    made of white space of any kind), or whose year input is empty, shows
    "Please provide Title and Year" at once; no request leaves, none is
    pending (so no later part of the handler ever runs) and the cache is
    unchanged. *)
Theorem submit_missing_fields_rejected
    (w : World) (titleValue genreValue yearVal : jsstring) (r : FetchResult Movie) :
  Js.trim titleValue = "" \/ yearVal = "" ->
  let w' := exec (onSubmit titleValue genreValue yearVal) w in
  eval (onSubmit titleValue genreValue yearVal) w = Normal false /\
  mmError w' = Some "Please provide Title and Year" /\
  trace w' = trace w /\
  requests (trace w') = requests (trace w) /\
  allMovies w' = allMovies w /\
  exec (addFlow titleValue genreValue yearVal r) w = w'.
Proof.
  intros H w'. subst w'.
  assert (Hguard :
    (negb (Js.truthy_string (Js.trim (Js.or_string (Some titleValue) ""))) ||
     negb (match (if Js.truthy_string yearVal then Some (Js.parseInt yearVal) else None)
           with Some n => Js.truthy n | None => false end))%bool
    = true).
  { destruct H as [Ht | Hy].
    - assert (Hor : Js.or_string (Some titleValue) "" = titleValue)
        by (destruct titleValue; reflexivity).
      rewrite Hor, Ht. reflexivity.
    - subst yearVal. apply orb_true_r. }
  unfold addFlow, exec, eval, bind, onSubmit. rewrite Hguard. cbn. repeat split.
Qed.

(** The scenario of the specification: empty title, year "2020"; and a
    title made of a no-break space and a line separator. *)
Lemma submit_missing_fields_rejected_witness :
  let w' := exec (addFlow "" "Drama" "2020" (Resolved (mkResponse 201 (inr dune))))
                 (page [dune; amelie]) in
  let spaces := String 160 (String 8232 " ") in
  Js.trim "" = "" /\ Js.trim spaces = "" /\
  mmError w' = Some "Please provide Title and Year" /\
  requests (trace w') = [] /\
  allMovies w' = [dune; amelie] /\
  requests (trace (exec (onSubmit spaces "Drama" "2020") (page [dune; amelie]))) = [].
Proof.
  intros w' spaces.
  pose proof (submit_missing_fields_rejected (page [dune; amelie]) "" "Drama" "2020"
                (Resolved (mkResponse 201 (inr dune))) (or_introl eq_refl))
    as [_ [Herr [_ [Hreq [Hcache Hflow]]]]].
  pose proof (submit_missing_fields_rejected (page [dune; amelie]) spaces "Drama" "2020"
                (Resolved (mkResponse 201 (inr dune))) (or_introl eq_refl))
    as [_ [_ [_ [Hreq' _]]]].
  subst w'. rewrite Hflow.
  split; [reflexivity |]. split; [reflexivity |]. split; [exact Herr |].
  split; [exact Hreq |]. split; [exact Hcache | exact Hreq'].
Defined.

(** ** Failed requests *)

Lemma showError_exec (message : jsstring) (w : World) :
  exec (showError message) w
  = set_timers (timers w ++ [now w + 5000])%list (set_mmError (Some message) w).
Proof. reflexivity. Qed.

(** C7: when the server answers a create, an update or a delete with a
    failure status, the cache is exactly as it was, and the message shown
    names the operation and ends with the status in decimal; for a create
    answered 500 the message shown contains "500".  The part of each
    handler that runs before the request does not touch the cache either. *)
Theorem failed_mutation_keeps_cache {L : Js.CaseMapping}
    (w : World) (id : option ident) (rc ru : Response Movie) (rd : Response unit) :
  ok rc = false -> ok ru = false -> ok rd = false ->
  let wc := exec (onSubmit_then (Resolved rc)) w in
  let wu := exec (editMoviePrompt_then id (Resolved ru)) w in
  let wd := exec (deleteMovie_then id (Resolved rd)) w in
  (allMovies wc = allMovies w /\
   mmError wc = Some ("Add failed: " ++ Js.string_of_Z (status rc)) /\
   Substring (Js.string_of_Z (status rc)) ("Add failed: " ++ Js.string_of_Z (status rc))) /\
  (allMovies wu = allMovies w /\
   mmError wu = Some ("Update failed: " ++ Js.string_of_Z (status ru)) /\
   Substring (Js.string_of_Z (status ru)) ("Update failed: " ++ Js.string_of_Z (status ru))) /\
  (allMovies wd = allMovies w /\
   mmError wd = Some ("Delete failed: " ++ Js.string_of_Z (status rd)) /\
   Substring (Js.string_of_Z (status rd)) ("Delete failed: " ++ Js.string_of_Z (status rd))) /\
  (status rc = 500 ->
   exists message, mmError wc = Some message /\ Substring "500" message) /\
  (forall u t y g titleValue genreValue yearVal,
     allMovies (exec (onSubmit titleValue genreValue yearVal) w) = allMovies w /\
     allMovies (exec (editMoviePrompt u id t y g) w) = allMovies w /\
     allMovies (exec (deleteMovie u id) w) = allMovies w).
Proof.
  intros Hc Hu Hd wc wu wd. subst wc wu wd.
  rewrite (onSubmit_then_fail rc w Hc), (editMoviePrompt_then_fail id ru w Hu),
    (deleteMovie_then_fail id rd w Hd), !showError_exec.
  cbn [allMovies mmError set_timers set_mmError].
  repeat split; try (apply includes_iff, includes_suffix).
  - intros H500. eexists. split; [reflexivity |]. rewrite H500.
    apply includes_iff. reflexivity.
  - apply onSubmit_keeps_cache.
  - apply editMoviePrompt_keeps_cache.
  - apply deleteMovie_keeps_cache.
Qed.

(** The scenario of the specification: the create of "Nope" (1999)
    answered 500. *)
Lemma failed_mutation_keeps_cache_witness :
  let failure := mkResponse 500 (inl "Unexpected end of JSON input") in
  let w' := exec (addFlow "Nope" "" "1999" (Resolved failure)) (page [dune; amelie]) in
  ok failure = false /\
  requests (trace w')
  = [mkRequest POST API_URL (Some (mkPayload "Nope" (Some (Js.Num 1999)) ""))] /\
  allMovies w' = [dune; amelie] /\
  mmError w' = Some "Add failed: 500" /\
  Substring "500" "Add failed: 500".
Proof.
  intros failure w'.
  pose (w0 := exec (onSubmit "Nope" "" "1999") (page [dune; amelie])).
  pose proof (failed_mutation_keeps_cache w0 (Some (IdNum 1)) failure failure
                (mkResponse 500 (inl "")) eq_refl eq_refl eq_refl)
    as [[Hcache [Herr Hsub]] _].
  split; [reflexivity |]. split; [reflexivity |].
  split; [exact Hcache |]. split; [exact Herr | exact Hsub].
Defined.

(** ** The renderer *)

Lemma triggers_rows (l : list Movie) :
  triggers (map movieElement l) = (2 * List.length l)%nat.
Proof.
  induction l as [|m l IH]; [reflexivity |].
  change (triggers (map movieElement (m :: l)))
    with (2 + triggers (map movieElement l))%nat.
  rewrite IH. cbn [List.length]. lia.
Qed.



(** The scenario rows. *)
Example render_scenario :
  movieList (page [dune; mkMovie None None None None])
  = [MovieItem "Dune" " (2021) - Sci-Fi"
       (Some (IdNum 1), Some "Dune", Some 2021, Some "Sci-Fi") (Some (IdNum 1));
     MovieItem "(Untitled)" " (N/A) - Unknown" (None, None, None, None) None].
Proof. reflexivity. Qed.

(** ** The error reporter *)

(** One slot: whatever was shown, [showError] makes the slot show the new
    message, and adds a timeout 5000 ms ahead. *)
Lemma showError_replaces (message : jsstring) (w : World) :
  mmError (exec (showError message) w) = Some message /\
  timers (exec (showError message) w) = (timers w ++ [now w + 5000])%list.
Proof. split; reflexivity. Qed.

(** With no timeout pending, a message stays for 5000 ms and is blanked
    then. *)
Lemma single_error_lasts (message : jsstring) (w : World) (ms : Z) :
  timers w = [] -> 0 <= ms ->
  mmError (elapse ms (exec (showError message) w))
  = if ms <? 5000 then Some message else Some "".
Proof.
  intros Ht Hms. unfold elapse. rewrite showError_exec.
  cbn [timers now set_timers set_mmError]. rewrite Ht. cbn [app filter].
  destruct (Z.leb_spec (now w + 5000) (now w + ms)), (Z.ltb_spec ms 5000);
    try lia; reflexivity.
Qed.

(** C9 fails when errors overlap.  "A" is reported at time 0 and "B" at
    time 3000; "B" replaces "A", but at time 5000 the timeout set for "A"
    fires and blanks the slot, 2000 ms after "B" arrived; the timeout set
    for "B" is still pending. *)
Theorem second_error_cleared_early :
  let w1 := exec (showError "A") (page []) in
  let w2 := exec (showError "B") (elapse 3000 w1) in
  let w3 := elapse 2000 w2 in
  now w2 = 3000 /\ mmError w2 = Some "B" /\
  mmError (elapse 1999 w2) = Some "B" /\
  now w3 = 5000 /\ mmError w3 = Some "" /\ timers w3 = [8000].
Proof. repeat split. Qed.

(** ** The initial load *)

(** A successful load replaces the cache by the array the server sent (by
    the empty array when the body is not an array), whatever was cached,
    and draws the whole cache; nothing is reported and the request itself
    is one GET of the collection without a body. *)
Theorem load_replaces_cache
    (w : World) (res : Response (option (list Movie))) (body : option (list Movie)) :
  ok res = true -> json res = inr body ->
  let w' := exec (fetchMovies_then (Resolved res)) w in
  allMovies w' = match body with Some l => l | None => [] end /\
  movieList w' = movieList (exec (renderMovies (allMovies w')) w) /\
  mmError w' = mmError w /\ timers w' = timers w /\ trace w' = trace w /\
  requests (trace (exec fetchMovies w))
  = (requests (trace w) ++ [mkRequest GET API_URL None])%list.
Proof.
  intros Hok Hjson w'. subst w'.
  unfold exec at 1 2 4 5 6 7, fetchMovies_then, try_catch, bind, await, res_json,
    ret, gets, modify.
  rewrite Hok, Hjson. cbn -[renderMovies API_URL].
  rewrite !renderMovies_normal. cbn [snd].
  rewrite renderMovies_allMovies. cbn [allMovies set_allMovies].
  repeat split.
  - apply renderMovies_movieList.
  - now destruct body as [[|]|].
  - now destruct body as [[|]|].
  - now destruct body as [[|]|].
  - unfold exec, fetchMovies, fetch, modify. cbn [snd log trace].
    rewrite requests_app. reflexivity.
Qed.

Lemma load_replaces_cache_witness :
  let w' := exec (fetchMovies_then (Resolved (mkResponse 200 (inr (Some [amelie])))))
                 (page [dune]) in
  allMovies w' = [amelie] /\ movieList w' = [movieElement amelie].
Proof.
  intros w'.
  pose proof (load_replaces_cache (page [dune]) (mkResponse 200 (inr (Some [amelie])))
                (Some [amelie]) eq_refl eq_refl) as [Hcache [Hlist _]].
  split; [exact Hcache | exact Hlist].
Defined.

(** A load that fails in any way (the request is rejected, the status is
    not a success, or the body does not decode) does nothing but report
    "Error fetching movies: " followed by the reason: the cache and the
    list stay as they were. *)
Theorem load_failure_only_reports
    (w : World) (r : FetchResult (option (list Movie))) (reason : jsstring) :
  failure "Server returned " r = Some reason ->
  exec (fetchMovies_then r) w = exec (showError ("Error fetching movies: " ++ reason)) w.
Proof.
  unfold failure. intros H.
  unfold exec, fetchMovies_then, try_catch, bind, await, res_json, ret, throw.
  destruct r as [e | res].
  - injection H as <-. reflexivity.
  - destruct (ok res); cbn.
    + destruct (json res) as [e | a]; [| discriminate]. injection H as <-. reflexivity.
    + injection H as <-. reflexivity.
Qed.

Lemma load_failure_only_reports_witness :
  let w' := exec (fetchMovies_then (Rejected "Failed to fetch")) (page [dune]) in
  failure (A := option (list Movie)) "Server returned " (Rejected "Failed to fetch")
  = Some "Failed to fetch" /\
  mmError w' = Some "Error fetching movies: Failed to fetch" /\
  allMovies w' = [dune] /\ movieList w' = [movieElement dune].
Proof.
  intros w'. subst w'.
  rewrite (load_failure_only_reports (page [dune]) (Rejected "Failed to fetch")
             "Failed to fetch" eq_refl).
  repeat split.
Defined.

(** ** Requests that fail otherwise than by their status *)

(** A create or an update whose request is rejected, answered with a
    failure status, or answered with a body that does not decode, and a
    delete whose request is rejected or answered with a failure status, do
    nothing but show the reason: cache, list, search box and trace are as
    they were. *)
Theorem mutation_failure_only_reports {L : Js.CaseMapping}
    (w : World) (id : option ident) (rc ru : FetchResult Movie) (rd : FetchResult unit)
    (ec eu ed : jsstring) :
  failure "Add failed: " rc = Some ec ->
  failure "Update failed: " ru = Some eu ->
  refused "Delete failed: " rd = Some ed ->
  exec (onSubmit_then rc) w = exec (showError ec) w /\
  exec (editMoviePrompt_then id ru) w = exec (showError eu) w /\
  exec (deleteMovie_then id rd) w = exec (showError ed) w.
Proof.
  unfold failure, refused. intros Hc Hu Hd.
  unfold exec, onSubmit_then, editMoviePrompt_then, deleteMovie_then,
    try_catch, bind, await, res_json, ret, throw.
  repeat split.
  - destruct rc as [e | res]; [injection Hc as <-; reflexivity |].
    destruct (ok res); cbn.
    + destruct (json res) as [e | a]; [| discriminate]. injection Hc as <-. reflexivity.
    + injection Hc as <-. reflexivity.
  - destruct ru as [e | res]; [injection Hu as <-; reflexivity |].
    destruct (ok res); cbn.
    + destruct (json res) as [e | a]; [| discriminate]. injection Hu as <-. reflexivity.
    + injection Hu as <-. reflexivity.
  - destruct rd as [e | res]; [injection Hd as <-; reflexivity |].
    destruct (ok res); cbn; [discriminate |]. injection Hd as <-. reflexivity.
Qed.

Lemma mutation_failure_only_reports_witness :
  let garbled : FetchResult Movie := Resolved (mkResponse 200 (inl "Unexpected token <")) in
  let offline : FetchResult unit := Rejected "Failed to fetch" in
  failure "Add failed: " garbled = Some "Unexpected token <" /\
  allMovies (exec (onSubmit_then garbled) (page [dune])) = [dune] /\
  mmError (exec (onSubmit_then garbled) (page [dune])) = Some "Unexpected token <" /\
  allMovies (exec (deleteMovie_then (Some (IdNum 1)) offline) (page [dune])) = [dune] /\
  mmError (exec (deleteMovie_then (Some (IdNum 1)) offline) (page [dune]))
  = Some "Failed to fetch".
Proof.
  intros garbled offline.
  destruct (mutation_failure_only_reports (page [dune]) (Some (IdNum 1)) garbled garbled
              offline "Unexpected token <" "Unexpected token <" "Failed to fetch"
              eq_refl eq_refl eq_refl) as [Hc [_ Hd]].
  rewrite Hc, Hd. repeat split.
Defined.

(** ** Declining the confirmation *)

(** A delete that is not confirmed stops after the confirmation dialog: no
    request leaves, none is pending, and nothing on the page changes. *)
Theorem delete_declined_does_nothing
    (w : World) (u : User) (id : option ident) (r : FetchResult unit) :
  accepts u "Delete this movie?" = false ->
  deleteMovie u id w = (Normal false, log (AskedConfirm "Delete this movie?") w) /\
  exec (deleteFlow u id r) w = log (AskedConfirm "Delete this movie?") w /\
  requests (trace (exec (deleteFlow u id r) w)) = requests (trace w).
Proof.
  intros Hno.
  unfold exec, deleteFlow, deleteMovie, bind, window_confirm, ret. rewrite Hno. cbn.
  repeat split. rewrite requests_app. cbn. apply app_nil_r.
Qed.

Lemma delete_declined_does_nothing_witness :
  accepts dismisses "Delete this movie?" = false /\
  allMovies (exec (deleteFlow dismisses (Some (IdNum 1)) (Resolved (mkResponse 200 (inr tt))))
                  (page [dune; amelie]))
  = [dune; amelie].
Proof.
  split; [reflexivity |].
  destruct (delete_declined_does_nothing (page [dune; amelie]) dismisses (Some (IdNum 1))
              (Resolved (mkResponse 200 (inr tt))) eq_refl) as [_ [Hflow _]].
  rewrite Hflow. reflexivity.
Defined.

(** ** What the response handlers never do *)

Lemma showError_trace (message : jsstring) (w : World) :
  trace (exec (showError message) w) = trace w.
Proof. reflexivity. Qed.

(** No handler retries or asks again when a response arrives: whatever the
    outcome of the request, the part of a handler that runs after it sends
    nothing and opens no dialog.  Only a create that succeeded leaves a
    mark, the reset of the form; a create that failed leaves the form as
    the user filled it. *)
Theorem responses_send_nothing {L : Js.CaseMapping}
    (w : World) (id : option ident)
    (rl : FetchResult (option (list Movie))) (rc ru : FetchResult Movie)
    (rd : FetchResult unit) :
  trace (exec (fetchMovies_then rl) w) = trace w /\
  trace (exec (editMoviePrompt_then id ru) w) = trace w /\
  trace (exec (deleteMovie_then id rd) w) = trace w /\
  trace (exec (onSubmit_then rc) w)
  = match failure "Add failed: " rc with
    | None => (trace w ++ [FormReset])%list
    | Some _ => trace w
    end.
Proof.
  repeat split.
  - destruct rl as [e | res]; [reflexivity |].
    unfold exec, fetchMovies_then, try_catch, bind, await, res_json, ret, throw,
      gets, modify.
    destruct (ok res); [| reflexivity]. cbn -[renderMovies].
    destruct (json res) as [e | body]; [reflexivity |]. cbn -[renderMovies].
    rewrite renderMovies_normal. cbn [snd]. now rewrite renderMovies_trace.
  - destruct ru as [e | res]; [reflexivity |].
    destruct (ok res) eqn:Hok.
    + destruct (json res) as [e | updated] eqn:Hj.
      * unfold exec, editMoviePrompt_then, try_catch, bind, await, res_json, ret, throw.
        now rewrite Hok, Hj.
      * rewrite (editMoviePrompt_then_ok id res updated w Hok Hj).
        now rewrite renderMovies_trace.
    + now rewrite (editMoviePrompt_then_fail id res w Hok).
  - destruct rd as [e | res]; [reflexivity |].
    destruct (ok res) eqn:Hok.
    + rewrite (deleteMovie_then_ok id res w Hok). now rewrite renderMovies_trace.
    + now rewrite (deleteMovie_then_fail id res w Hok).
  - destruct rc as [e | res]; [reflexivity |]. unfold failure.
    destruct (ok res) eqn:Hok.
    + destruct (json res) as [e | created] eqn:Hj.
      * unfold exec, onSubmit_then, try_catch, bind, await, res_json, ret, throw.
        now rewrite Hok, Hj.
      * rewrite (onSubmit_then_ok res created w Hok Hj). cbn [log trace].
        now rewrite renderMovies_trace.
    + now rewrite (onSubmit_then_fail res w Hok).
Qed.

(** ** The search box *)

(** Typing into the search box is local: the cache is untouched, nothing
    is sent, the box holds what was typed, and the list is redrawn from the
    filtered cache: the placeholder when nothing matches, otherwise exactly
    the rows of the matching movies in cache order, with two buttons each.
    A blank value brings the whole cache back. *)
Theorem search_redraws_matches {L : Js.CaseMapping} (w : World) (value : jsstring) :
  let w' := exec (onSearchInput value) w in
  let found := filterMovies value w in
  allMovies w' = allMovies w /\ trace w' = trace w /\ mmError w' = mmError w /\
  searchValue w' = value /\
  movieList w'
  = match found with
    | [] => [Paragraph "No movies found matching your criteria."]
    | _ :: _ => map movieElement found
    end /\
  triggers (movieList w') = (2 * List.length found)%nat /\
  (blank value = true -> found = allMovies w).
Proof.
  intros w' found. subst w'.
  unfold exec, onSearchInput, bind, modify, gets.
  cbn -[renderMovies filterMovies].
  change (filterMovies value (set_searchValue value w)) with found.
  rewrite renderMovies_normal. cbn [snd].
  rewrite renderMovies_allMovies, renderMovies_trace.
  assert (Hlist : movieList (exec (renderMovies found) (set_searchValue value w))
                  = match found with
                    | [] => [Paragraph "No movies found matching your criteria."]
                    | _ :: _ => map movieElement found
                    end) by (destruct found; reflexivity).
  rewrite Hlist.
  repeat split.
  - now destruct found.
  - now destruct found.
  - destruct found as [|m l] eqn:E; [reflexivity |]. apply (triggers_rows (m :: l)).
  - intros Hb. subst found. unfold filterMovies.
    now rewrite (trim_blank value Hb), toLowerCase_of_empty.
Qed.

(** ** What is drawn after a mutation *)

(** With a query left in the search box, a successful update redraws the
    view filtered by that query (over the updated cache), while a
    successful create redraws the whole cache, one row per cached movie,
    the new one last, whether or not they match the query.  Neither changes
    the search box. *)
Theorem redraw_scope_after_success {L : Js.CaseMapping}
    (w : World) (id : option ident) (ru rc : Response Movie) (updated created : Movie) :
  ok ru = true -> json ru = inr updated ->
  ok rc = true -> json rc = inr created ->
  let wu := exec (editMoviePrompt_then id (Resolved ru)) w in
  let wc := exec (onSubmit_then (Resolved rc)) w in
  movieList wu = movieList (exec (renderMovies (filterMovies (searchValue w) wu)) w) /\
  searchValue wu = searchValue w /\
  movieList wc = map movieElement (allMovies w ++ [created])%list /\
  List.length (movieList wc) = S (List.length (allMovies w)) /\
  searchValue wc = searchValue w.
Proof.
  intros Hu Hju Hc Hjc wu wc. subst wu wc.
  rewrite (editMoviePrompt_then_ok id ru updated w Hu Hju).
  rewrite (onSubmit_then_ok rc created w Hc Hjc).
  set (w1 := set_allMovies (replaceById id updated (allMovies w)) w).
  set (w2 := set_allMovies (push created (allMovies w)) w).
  assert (Hf : forall q l, filterMovies q (exec (renderMovies l) w1) = filterMovies q w1).
  { intros q l. unfold filterMovies. now rewrite renderMovies_allMovies. }
  assert (Hs : forall l v, searchValue (exec (renderMovies l) v) = searchValue v)
    by (intros [|] v; reflexivity).
  assert (Hml : movieList (log FormReset (exec (renderMovies (allMovies w2)) w2))
                = map movieElement (allMovies w ++ [created])%list).
  { cbn [log movieList]. subst w2. cbn [allMovies set_allMovies]. unfold push.
    destruct (allMovies w); reflexivity. }
  repeat split.
  - rewrite Hf. apply renderMovies_movieList.
  - now rewrite Hs.
  - exact Hml.
  - rewrite Hml, length_map, length_app. cbn. lia.
  - cbn [log searchValue]. now rewrite Hs.
Qed.

Lemma redraw_scope_after_success_witness :
  let searching := exec (onSearchInput "rom") (page [dune; amelie]) in
  let arrival := mkMovie (Some (IdNum 3)) (Some "Arrival") (Some 2016) (Some "Sci-Fi") in
  let retitled := mkMovie (Some (IdNum 2)) (Some "Amelie") (Some 2001) (Some "Comedy") in
  movieList searching = [movieElement amelie] /\
  movieList (exec (onSubmit_then (Resolved (mkResponse 201 (inr arrival)))) searching)
  = [movieElement dune; movieElement amelie; movieElement arrival] /\
  movieList (exec (editMoviePrompt_then (Some (IdNum 2))
                     (Resolved (mkResponse 200 (inr retitled)))) searching)
  = [Paragraph "No movies found matching your criteria."].
Proof.
  intros searching arrival retitled.
  destruct (redraw_scope_after_success searching (Some (IdNum 2))
              (mkResponse 200 (inr retitled)) (mkResponse 201 (inr arrival))
              retitled arrival eq_refl eq_refl eq_refl eq_refl)
    as [Hu [_ [Hc _]]].
  split; [reflexivity |]. split; [exact Hc |]. rewrite Hu. reflexivity.
Defined.

(** ** More on the filter *)

Lemma Substring_trans (a b c : jsstring) :
  Substring a b -> Substring b c -> Substring a c.
Proof.
  intros [x [y ->]] [x' [y' ->]]. exists (x' ++ x), (y ++ y').
  induction x' as [|ch x' IH]; simpl.
  - induction x as [|ch x IHx]; simpl.
    + induction a as [|ch a IHa]; simpl; [reflexivity | now rewrite IHa].
    + now rewrite IHx.
  - now rewrite IH.
Qed.

Lemma Substring_of_empty (a : jsstring) : Substring a "" -> a = "".
Proof.
  intros [x [y H]]. destruct x; [| discriminate]. destruct a; [reflexivity | discriminate].
Qed.

Lemma filter_narrower {A} (p p' : A -> bool) (l : list A) :
  (forall x, p' x = true -> p x = true) ->
  Subsequence (filter p' l) (filter p l).
Proof.
  intros Himp. induction l as [|x l IH]; simpl; [constructor |].
  destruct (p' x) eqn:E'.
  - rewrite (Himp x E'). now constructor.
  - destruct (p x); [now constructor | exact IH].
Qed.

Lemma filterMovies_unfold {L : Js.CaseMapping} (query : jsstring) (w : World) :
  filterMovies query w
  = if negb (Js.truthy_string (normalised query)) then allMovies w
    else filter (matches (normalised query)) (allMovies w).
Proof. reflexivity. Qed.

(** Refining the query can only remove rows: when the normalised form of
    one query occurs in the normalised form of another, everything the
    longer query selects is selected by the shorter one, in the same
    order. *)
Theorem longer_query_narrows {L : Js.CaseMapping} (w : World) (query query' : jsstring) :
  Substring (normalised query) (normalised query') ->
  Subsequence (filterMovies query' w) (filterMovies query w).
Proof.
  intros Hsub. rewrite !filterMovies_unfold.
  destruct (normalised query) as [|c q] eqn:Eq; cbn [Js.truthy_string negb].
  - destruct (negb _); [| apply filter_Subsequence].
    clear. induction (allMovies w); now constructor.
  - destruct (normalised query') as [|c' q'] eqn:Eq'.
    + apply Substring_of_empty in Hsub. discriminate.
    + cbn [Js.truthy_string negb]. apply filter_narrower.
      intros m Hm. apply matches_iff. apply matches_iff in Hm.
      destruct Hm as [Ht | Hg]; [left | right]; eapply Substring_trans; eassumption.
Qed.

Lemma longer_query_narrows_witness :
  Substring (normalised "Sc") (normalised " sci-f") /\
  Subsequence (filterMovies " sci-f" (page [dune; amelie]))
              (filterMovies "Sc" (page [dune; amelie])).
Proof.
  assert (H : Substring (normalised "Sc") (normalised " sci-f"))
    by (apply includes_iff; reflexivity).
  split; [exact H |].
  exact (longer_query_narrows (page [dune; amelie]) "Sc" " sci-f" H).
Defined.

(** A movie that has neither a title nor a genre (missing or empty) is
    found by no query except a blank one. *)
Theorem untitled_matches_only_blank {L : Js.CaseMapping} (w : World) (query : jsstring) (m : Movie) :
  Js.trim query <> "" ->
  Js.or_string (m_title m) "" = "" -> Js.or_string (m_genre m) "" = "" ->
  ~ In m (filterMovies query w).
Proof.
  intros Hq Ht Hg Hin.
  rewrite (filterMovies_nonblank query w Hq) in Hin.
  apply filter_In in Hin as [_ Hm]. unfold matches in Hm. rewrite Ht, Hg in Hm.
  destruct (Js.toLowerCase (Js.trim query)) eqn:E.
  - now apply toLowerCase_empty in E.
  - rewrite toLowerCase_of_empty in Hm. discriminate Hm.
Qed.

Lemma untitled_matches_only_blank_witness :
  let blankRow := mkMovie (Some (IdNum 9)) None (Some 1999) (Some "") in
  Js.trim "a" <> "" /\
  ~ In blankRow (filterMovies "a" (page [dune; blankRow])) /\
  In blankRow (filterMovies " " (page [dune; blankRow])) /\
  In blankRow (filterMovies (String 160 "") (page [dune; blankRow])).
Proof.
  intros blankRow. split; [discriminate |]. split; [| split].
  - apply (untitled_matches_only_blank (page [dune; blankRow]) "a" blankRow);
      [discriminate | reflexivity | reflexivity].
  - right. left. reflexivity.
  - right. left. reflexivity.
Defined.

(** ** Ids in the cache *)

Lemma replaceById_ids id updated cache :
  m_id updated = id -> ids (replaceById id updated cache) = ids cache.
Proof.
  intros Hup. unfold ids, replaceById. rewrite map_map. apply map_ext_in.
  intros e _. destruct (strict_eq (m_id e) id) eqn:E; [| reflexivity].
  apply strict_eq_eq in E. congruence.
Qed.

Lemma removeById_ids_NoDup id cache :
  NoDup (ids cache) -> NoDup (ids (removeById id cache)).
Proof.
  unfold ids, removeById. induction cache as [|e cache IH]; simpl; [constructor |].
  intros Hnd. inversion Hnd as [|x l Hnotin Hnd']; subst.
  destruct (strict_eq (m_id e) id); simpl; [now apply IH |].
  constructor; [| now apply IH].
  intros Hin. apply Hnotin. apply in_map_iff in Hin as [y [Hy Hin]].
  apply in_map_iff. exists y. split; [exact Hy |].
  now apply filter_In in Hin as [Hin _].
Qed.

(** The handlers keep ids unique.  A successful update whose answer
    carries the id that was asked for leaves the sequence of cached ids
    exactly as it was; a successful delete keeps distinct ids distinct; a
    successful create keeps them distinct provided the id the server
    assigned is not cached yet (the script itself does not check this). *)
Theorem unique_ids_preserved {L : Js.CaseMapping}
    (w : World) (id : option ident) (ru rc : Response Movie) (rd : Response unit)
    (updated created : Movie) :
  ok ru = true -> json ru = inr updated -> m_id updated = id ->
  ok rc = true -> json rc = inr created ->
  ok rd = true ->
  let wu := exec (editMoviePrompt_then id (Resolved ru)) w in
  let wc := exec (onSubmit_then (Resolved rc)) w in
  let wd := exec (deleteMovie_then id (Resolved rd)) w in
  ids (allMovies wu) = ids (allMovies w) /\
  (NoDup (ids (allMovies w)) -> NoDup (ids (allMovies wd))) /\
  (NoDup (ids (allMovies w)) -> ~ In (m_id created) (ids (allMovies w)) ->
   NoDup (ids (allMovies wc))) /\
  (In (m_id created) (ids (allMovies w)) -> ~ NoDup (ids (allMovies wc))).
Proof.
  intros Hu Hju Hid Hc Hjc Hd wu wc wd. subst wu wc wd.
  rewrite (editMoviePrompt_then_ok id ru updated w Hu Hju).
  rewrite (onSubmit_then_ok rc created w Hc Hjc).
  rewrite (deleteMovie_then_ok id rd w Hd).
  cbn [log allMovies]. rewrite !renderMovies_allMovies. cbn [set_allMovies allMovies].
  repeat split.
  - now apply replaceById_ids.
  - apply removeById_ids_NoDup.
  - intros Hnd Hfresh. unfold push, ids. rewrite map_app. cbn [map].
    apply NoDup_app; [exact Hnd | repeat constructor; intros [] | ].
    intros x Hx [<- | []]. now apply Hfresh.
  - intros Hin Hnd. unfold push, ids in Hnd. rewrite map_app in Hnd. cbn [map] in Hnd.
    apply NoDup_remove_2 in Hnd. apply Hnd. rewrite app_nil_r. exact Hin.
Qed.

Lemma unique_ids_preserved_witness :
  let retitled := mkMovie (Some (IdNum 2)) (Some "Amelie") (Some 2001) (Some "Comedy") in
  ids (allMovies (exec (editMoviePrompt_then (Some (IdNum 2))
                          (Resolved (mkResponse 200 (inr retitled)))) (page [dune; amelie])))
  = [Some (IdNum 1); Some (IdNum 2)] /\
  ~ NoDup (ids (allMovies (exec (onSubmit_then (Resolved (mkResponse 201 (inr dune))))
                                (page [dune; amelie])))).
Proof.
  intros retitled.
  destruct (unique_ids_preserved (page [dune; amelie]) (Some (IdNum 2))
              (mkResponse 200 (inr retitled)) (mkResponse 201 (inr dune))
              (mkResponse 200 (inr tt)) retitled dune
              eq_refl eq_refl eq_refl eq_refl eq_refl eq_refl) as [Hu [_ [_ Hdup]]].
  split; [exact Hu |]. apply Hdup. left. reflexivity.
Defined.

(** ** Answers that arrive late *)

Lemma removeById_twice id cache :
  removeById id (removeById id cache) = removeById id cache.
Proof.
  unfold removeById. induction cache as [|e cache IH]; simpl; [reflexivity |].
  destruct (strict_eq (m_id e) id) eqn:E; simpl; [exact IH |].
  rewrite E. simpl. now rewrite IH.
Qed.

Lemma removeById_occurrences id cache :
  occurrences id (removeById id cache) = 0%nat.
Proof.
  unfold occurrences, removeById. induction cache as [|e cache IH]; simpl; [reflexivity |].
  destruct (strict_eq (m_id e) id) eqn:E; simpl; [exact IH |].
  rewrite E. exact IH.
Qed.

Lemma removeById_comm i j cache :
  removeById i (removeById j cache) = removeById j (removeById i cache).
Proof.
  unfold removeById. induction cache as [|e cache IH]; simpl; [reflexivity |].
  destruct (strict_eq (m_id e) j) eqn:Ej, (strict_eq (m_id e) i) eqn:Ei; simpl;
    rewrite ?Ej, ?Ei; simpl; now rewrite IH.
Qed.

(** Once a delete has succeeded, answers that arrive later cannot bring the
    movie back or remove anything else: a second successful delete of the
    same id and a successful update of that id both leave the cache as the
    first delete left it; and two deletes of any two ids give the same
    cache in either order of arrival. *)
Theorem late_answers_after_delete {L : Js.CaseMapping}
    (w : World) (id other : option ident) (rd rd' : Response unit)
    (ru : Response Movie) (updated : Movie) :
  ok rd = true -> ok rd' = true -> ok ru = true -> json ru = inr updated ->
  let wd := exec (deleteMovie_then id (Resolved rd)) w in
  allMovies (exec (deleteMovie_then id (Resolved rd')) wd) = allMovies wd /\
  allMovies (exec (editMoviePrompt_then id (Resolved ru)) wd) = allMovies wd /\
  allMovies (exec (deleteMovie_then other (Resolved rd')) wd)
  = allMovies (exec (deleteMovie_then id (Resolved rd))
                    (exec (deleteMovie_then other (Resolved rd')) w)).
Proof.
  intros Hd Hd' Hu Hju wd. subst wd.
  rewrite !(deleteMovie_then_ok _ rd' _ Hd'), !(deleteMovie_then_ok _ rd _ Hd).
  rewrite (editMoviePrompt_then_ok id ru updated _ Hu Hju).
  repeat (first [rewrite renderMovies_allMovies
                | progress (cbn [set_allMovies allMovies])]).
  repeat split.
  - apply removeById_twice.
  - apply replaceById_absent, removeById_occurrences.
  - apply removeById_comm.
Qed.

Lemma late_answers_after_delete_witness :
  let gone := exec (deleteMovie_then (Some (IdNum 1)) (Resolved (mkResponse 200 (inr tt))))
                   (page [dune; amelie]) in
  allMovies gone = [amelie] /\
  allMovies (exec (editMoviePrompt_then (Some (IdNum 1))
                     (Resolved (mkResponse 200 (inr dune)))) gone) = [amelie].
Proof.
  intros gone.
  destruct (late_answers_after_delete (page [dune; amelie]) (Some (IdNum 1))
              (Some (IdNum 2)) (mkResponse 200 (inr tt)) (mkResponse 200 (inr tt))
              (mkResponse 200 (inr dune)) dune eq_refl eq_refl eq_refl eq_refl)
    as [_ [Hu _]].
  subst gone. split; [reflexivity |]. rewrite Hu. reflexivity.
Defined.

(** ** Numbers and white space in what is sent *)

Lemma read_digits_uint (d : Decimal.uint) (acc : Z) :
  Js.read_digits (Js.of_string (NilEmpty.string_of_uint d)) (Some acc)
  = Some (uintValue d acc).
Proof.
  revert acc. induction d; intros acc;
    cbn [NilEmpty.string_of_uint uintValue Js.of_string];
    [reflexivity | ..];
    cbn [Js.read_digits]; eval_digit; cbn iota; rewrite IHd, ?Z.add_0_r; reflexivity.
Qed.

Lemma read_digits_decimal (d : Decimal.uint) :
  Js.read_digits (Js.of_string (NilZero.string_of_uint d)) None = Some (uintValue d 0).
Proof.
  destruct d;
    cbn [NilZero.string_of_uint NilEmpty.string_of_uint uintValue Js.of_string];
    cbn [Js.read_digits]; eval_digit; cbn iota;
    rewrite ?read_digits_uint; reflexivity.
Qed.

Lemma parseDigits_decimal (d : Decimal.uint) :
  Js.parseDigits (Js.of_string (NilZero.string_of_uint d)) = Some (uintValue d 0).
Proof. rewrite <- read_digits_decimal. destruct d; reflexivity. Qed.

Lemma uintValue_acc (d : Decimal.uint) (p : positive) :
  Z.pos (Pos.of_uint_acc d p) = uintValue d (Z.pos p).
Proof.
  revert p. induction d; intros p; cbn [Pos.of_uint_acc uintValue];
    [reflexivity | ..]; rewrite IHd; f_equal; lia.
Qed.

Lemma uintValue_of_uint (d : Decimal.uint) : Z.of_uint d = uintValue d 0.
Proof.
  unfold Z.of_uint.
  induction d; cbn [Pos.of_uint uintValue]; [reflexivity | exact IHd | ..];
    cbn [Z.of_N]; rewrite uintValue_acc; reflexivity.
Qed.

(** The digits [parseInt] reads back from the decimal text of an integer
    are those of the integer. *)
Lemma parseDigits_string_of_Z (z : Z) : Js.parseDigits (Js.string_of_Z z) = Some z.
Proof.
  unfold Js.string_of_Z. rewrite <- (DecimalZ.of_to z) at 2.
  destruct (Z.to_int z) as [d | d]; cbn [NilZero.string_of_int Z.of_int].
  - rewrite parseDigits_decimal. now rewrite uintValue_of_uint.
  - change (option_map Z.opp
              (Js.read_digits (Js.of_string (NilZero.string_of_uint d)) None)
            = Some (- Z.of_uint d)).
    rewrite read_digits_decimal, uintValue_of_uint. reflexivity.
Qed.

(** [parseInt(String(n), 10)] is [n] for every integer [n] of magnitude at
    most 2^53. *)
Lemma parseInt_string_of_Z (z : Z) :
  Js.safe z = true -> Js.parseInt (Js.string_of_Z z) = Js.Num z.
Proof.
  intros Hs. unfold Js.parseInt. now rewrite parseDigits_string_of_Z, Hs.
Qed.

Lemma truthy_parseInt (s : jsstring) :
  Js.truthy (Js.parseInt s) = true <-> exists z, Js.parseDigits s = Some z /\ z <> 0.
Proof.
  unfold Js.parseInt. destruct (Js.parseDigits s) as [z|]; cbn.
  - destruct (Js.safe z) eqn:Hs; cbn.
    + destruct (Z.eqb_spec z 0) as [-> | Hz]; cbn.
      * split; [discriminate | intros [z [Hz Hnz]]; congruence].
      * split; [intros _; now exists z | reflexivity].
    + split; [intros _ | reflexivity]. exists z. split; [reflexivity |].
      intros ->. discriminate Hs.
  - split; [discriminate | intros [z [Hz _]]; discriminate].
Qed.

Lemma trimStart_head (s : jsstring) :
  match Js.trimStart s with
  | EmptyString => True
  | String c _ => Js.is_whitespace c = false
  end.
Proof.
  induction s as [|c s IH]; cbn [Js.trimStart]; [exact I |].
  destruct (Js.is_whitespace c) eqn:E; [exact IH | exact E].
Qed.

Lemma trimEnd_last (s : jsstring) :
  match lastChar (Js.trimEnd s) with
  | Some d => Js.is_whitespace d = false
  | None => True
  end.
Proof.
  induction s as [|c s IH]; cbn [Js.trimEnd]; [exact I |].
  destruct (Js.trimEnd s) as [|a r] eqn:E.
  - destruct (Js.is_whitespace c) eqn:Ec; [exact I | exact Ec].
  - exact IH.
Qed.

Lemma trimEnd_head (c : codeunit) (r : jsstring) :
  Js.is_whitespace c = false -> exists r', Js.trimEnd (String c r) = String c r'.
Proof.
  intros Hc. cbn [Js.trimEnd]. destruct (Js.trimEnd r) as [|a r'].
  - rewrite Hc. now exists "".
  - now exists (String a r').
Qed.

Lemma trim_trimmed (s : jsstring) : trimmed (Js.trim s) = true.
Proof.
  unfold Js.trim. pose proof (trimStart_head s) as Hh.
  destruct (Js.trimStart s) as [|c r]; [reflexivity |].
  destruct (trimEnd_head c r Hh) as [r' Hr'].
  pose proof (trimEnd_last (String c r)) as Hl. rewrite Hr' in *.
  unfold trimmed. rewrite Hh. cbn [negb andb].
  destruct (lastChar (String c r')); [now rewrite Hl | reflexivity].
Qed.

Lemma or_string_some (s : jsstring) : Js.or_string (Some s) "" = s.
Proof. destruct s; reflexivity. Qed.

Lemma or_undefined_truthy (n : Js.number) :
  match Js.or_undefined n with Some m => m = n /\ Js.truthy m = true | None => Js.truthy n = false end.
Proof. unfold Js.or_undefined. destruct (Js.truthy n) eqn:E; [now split | reflexivity]. Qed.

Lemma prompts_app (a b : list Event) :
  prompts (a ++ b) = (prompts a ++ prompts b)%list.
Proof. induction a as [|[] a IH]; simpl; congruence. Qed.

(** ** What the add form sends *)

(** The add form sends exactly when the trimmed title is not empty and
    the year input is truthy once parsed, that is, when the digits
    [parseInt] reads from it have a value other than zero (so "0", "abc"
    and an empty year are all turned down).  Then the handler does one
    thing: it sends one POST of the collection whose body carries the
    trimmed title, the parsed year (the value of the digits when the
    magnitude is at most 2^53) and the trimmed genre.  Otherwise it does
    one thing as well: it shows "Please provide Title and Year"; nothing is
    sent.  Title and genre have no white space at either end. *)
Theorem submit_sends_iff_valid (w : World) (titleValue genreValue yearVal : jsstring) :
  let title := Js.trim titleValue in
  let genre := Js.trim genreValue in
  let year := Js.parseInt yearVal in
  (title <> "" /\ Js.truthy year = true ->
   onSubmit titleValue genreValue yearVal w
   = (Normal true,
      log (Fetched (mkRequest POST API_URL (Some (mkPayload title (Some year) genre)))) w)) /\
  (title = "" \/ Js.truthy year = false ->
   onSubmit titleValue genreValue yearVal w
   = (Normal false, exec (showError "Please provide Title and Year") w)) /\
  (Js.truthy year = true <-> exists z, Js.parseDigits yearVal = Some z /\ z <> 0) /\
  (forall z, Js.parseDigits yearVal = Some z -> Js.safe z = true -> year = Js.Num z) /\
  trimmed title = true /\ trimmed genre = true.
Proof.
  intros title genre year.
  assert (Hyear : match (if Js.truthy_string yearVal then Some (Js.parseInt yearVal) else None)
                  with Some n => Js.truthy n | None => false end
                  = Js.truthy year) by (destruct yearVal; reflexivity).
  assert (Hsome : Js.truthy year = true ->
                  (if Js.truthy_string yearVal then Some (Js.parseInt yearVal) else None)
                  = Some year).
  { destruct yearVal; [discriminate | reflexivity]. }
  split; [| split; [| split; [| split; [| split]]]].
  - intros [Ht Hy]. unfold onSubmit. rewrite !or_string_some, Hyear, (Hsome Hy), Hy.
    fold title genre. destruct title; [congruence | reflexivity].
  - intros H. unfold onSubmit. rewrite !or_string_some, Hyear. fold title.
    destruct H as [-> | ->]; [reflexivity |].
    destruct title; reflexivity.
  - apply truthy_parseInt.
  - intros z Hz Hs. subst year. unfold Js.parseInt. now rewrite Hz, Hs.
  - apply trim_trimmed.
  - apply trim_trimmed.
Qed.

Lemma submit_sends_iff_valid_witness :
  let padded := String 160 " Arrival " in
  onSubmit padded "Sci-Fi" "2016" (page [dune])
  = (Normal true,
     log (Fetched (mkRequest POST API_URL
                     (Some (mkPayload "Arrival" (Some (Js.Num 2016)) "Sci-Fi"))))
         (page [dune])) /\
  requests (trace (exec (onSubmit "Arrival" "Sci-Fi" "0") (page [dune]))) = [] /\
  requests (trace (exec (onSubmit "Arrival" "Sci-Fi" "soon") (page [dune]))) = [] /\
  requests (trace (exec (onSubmit (String 160 "") "Sci-Fi" "2016") (page [dune]))) = [].
Proof.
  intros padded.
  destruct (submit_sends_iff_valid (page [dune]) padded "Sci-Fi" "2016") as [Hsend _].
  destruct (submit_sends_iff_valid (page [dune]) "Arrival" "Sci-Fi" "0") as [_ [Hzero _]].
  destruct (submit_sends_iff_valid (page [dune]) "Arrival" "Sci-Fi" "soon") as [_ [Hnan _]].
  destruct (submit_sends_iff_valid (page [dune]) (String 160 "") "Sci-Fi" "2016")
    as [_ [Hblank _]].
  split; [| split; [| split]].
  - apply Hsend. split; [discriminate | reflexivity].
  - unfold exec. rewrite Hzero; [reflexivity | now right].
  - unfold exec. rewrite Hnan; [reflexivity | now right].
  - unfold exec. rewrite Hblank; [reflexivity | now left].
Defined.

(** ** What the edit dialog sends *)

(** An edit of a row with an id (and a cached year that is missing or of
    magnitude at most 2^53, which the year prompt shows in plain decimal)
    never touches the cache, the list or the error slot before the answer.
    What it does is decided by the answers
    to the first two prompts: if the title prompt is cancelled it stops
    after that prompt, and if the year prompt is cancelled it stops after
    that one, in both cases without sending; if both are answered it shows
    the genre prompt and then sends exactly one PATCH to the URL of that id,
    carrying the trimmed title, the trimmed genre (empty when the genre
    prompt is cancelled) and the parsed year, which is left out when it is
    not truthy: a year input such as "abc" or "0" leaves the year out and
    the request is still sent. *)
Theorem edit_sends_at_most_one_patch
    (w : World) (u : User) (i : ident) (t : option jsstring) (y : option Z)
    (g : option jsstring) :
  match y with Some n => Js.safe n = true | None => True end ->
  let dt := match t with Some s => s | None => "" end in
  let dy := if Js.truthy_number y
            then match y with Some n => Js.string_of_Z n | None => "" end else "" in
  let dg := Js.or_string g "" in
  let w' := exec (editMoviePrompt u (Some i) t y g) w in
  allMovies w' = allMovies w /\ movieList w' = movieList w /\ mmError w' = mmError w /\
  (answer u "Title:" dt = None ->
   editMoviePrompt u (Some i) t y g w = (Normal false, log (Prompted "Title:" dt) w)) /\
  (forall title,
     answer u "Title:" dt = Some title -> answer u "Release Year:" dy = None ->
     editMoviePrompt u (Some i) t y g w
     = (Normal false, log (Prompted "Release Year:" dy) (log (Prompted "Title:" dt) w))) /\
  (forall title yearInput,
     answer u "Title:" dt = Some title -> answer u "Release Year:" dy = Some yearInput ->
     editMoviePrompt u (Some i) t y g w
     = (Normal true,
        log (Fetched (mkRequest PATCH (API_URL ++ "/" ++ show_id (Some i))
                       (Some (mkPayload (Js.trim title)
                                        (Js.or_undefined (Js.parseInt yearInput))
                                        (Js.trim (Js.or_string (answer u "Genre:" dg) ""))))))
            (log (Prompted "Genre:" dg)
               (log (Prompted "Release Year:" dy) (log (Prompted "Title:" dt) w))))) /\
  (forall yearInput,
     (Js.truthy (Js.parseInt yearInput) = false ->
      Js.or_undefined (Js.parseInt yearInput) = None) /\
     (Js.truthy (Js.parseInt yearInput) = true ->
      Js.or_undefined (Js.parseInt yearInput) = Some (Js.parseInt yearInput))) /\
  ((eval (editMoviePrompt u (Some i) t y g) w = Normal false /\
    requests (trace w') = requests (trace w)) \/
   (eval (editMoviePrompt u (Some i) t y g) w = Normal true /\
    exists p,
      requests (trace w')
      = (requests (trace w)
         ++ [mkRequest PATCH (API_URL ++ "/" ++ show_id (Some i)) (Some p)])%list /\
      trimmed (p_title p) = true /\ trimmed (p_genre p) = true /\
      match p_year p with Some n => Js.truthy n = true | None => True end)).
Proof.
  intros _ dt dy dg w'. subst w'.
  split; [apply editMoviePrompt_keeps_cache |].
  assert (Hrun :
    editMoviePrompt u (Some i) t y g w
    = match answer u "Title:" dt with
      | None => (Normal false, log (Prompted "Title:" dt) w)
      | Some title =>
          match answer u "Release Year:" dy with
          | None => (Normal false,
                     log (Prompted "Release Year:" dy) (log (Prompted "Title:" dt) w))
          | Some yearInput =>
              (Normal true,
               log (Fetched (mkRequest PATCH (API_URL ++ "/" ++ show_id (Some i))
                      (Some (mkPayload (Js.trim title)
                               (Js.or_undefined (Js.parseInt yearInput))
                               (Js.trim (Js.or_string (answer u "Genre:" dg) ""))))))
                   (log (Prompted "Genre:" dg)
                      (log (Prompted "Release Year:" dy) (log (Prompted "Title:" dt) w))))
          end
      end).
  { unfold editMoviePrompt, bind, window_prompt, fetch, modify, ret. fold dt.
    destruct (answer u "Title:" dt) as [title|]; [| reflexivity].
    cbn beta iota. fold dy.
    destruct (answer u "Release Year:" dy) as [yearInput|]; [| reflexivity].
    cbn beta iota. fold dg. now rewrite !or_string_some. }
  unfold exec, eval. rewrite Hrun.
  split; [| split; [| split; [| split; [| split; [| split]]]]].
  - destruct (answer u "Title:" dt); [destruct (answer u "Release Year:" dy) |]; reflexivity.
  - destruct (answer u "Title:" dt); [destruct (answer u "Release Year:" dy) |]; reflexivity.
  - intros H. now rewrite H.
  - intros title Ht Hy. now rewrite Ht, Hy.
  - intros title yearInput Ht Hy. now rewrite Ht, Hy.
  - intros yearInput. unfold Js.or_undefined. split; intros H; now rewrite H.
  - destruct (answer u "Title:" dt) as [title|].
    + destruct (answer u "Release Year:" dy) as [yearInput|].
      * right. split; [reflexivity |]. eexists. cbn [fst snd log trace]. split.
        -- rewrite !requests_app. cbn [requests]. rewrite !app_nil_r. reflexivity.
        -- cbn [p_title p_genre p_year]. repeat split; try apply trim_trimmed.
           pose proof (or_undefined_truthy (Js.parseInt yearInput)) as Ho.
           destruct (Js.or_undefined (Js.parseInt yearInput)); [apply Ho | exact I].
      * left. split; [reflexivity |]. cbn [fst snd log trace].
        rewrite !requests_app. cbn. now rewrite !app_nil_r.
    + left. split; [reflexivity |]. cbn [fst snd log trace].
      rewrite requests_app. cbn. now rewrite app_nil_r.
Qed.

Lemma edit_sends_at_most_one_patch_witness :
  let vague := mkUser (fun message _ =>
                         if Js.eqb message "Release Year:" then Some "abc" else Some " x ")
                      (fun _ => true) in
  editMoviePrompt vague (Some (IdNum 1)) (Some "Dune") (Some 2021) (Some "Sci-Fi")
                  (page [dune])
  = (Normal true,
     log (Fetched (mkRequest PATCH "http://localhost:3000/movies/1"
                     (Some (mkPayload "x" None "x"))))
         (log (Prompted "Genre:" "Sci-Fi")
            (log (Prompted "Release Year:" "2021")
               (log (Prompted "Title:" "Dune") (page [dune]))))).
Proof.
  intros vague.
  destruct (edit_sends_at_most_one_patch (page [dune]) vague (IdNum 1)
              (Some "Dune") (Some 2021) (Some "Sci-Fi") eq_refl)
    as [_ [_ [_ [_ [_ [Hsend _]]]]]].
  exact (Hsend " x " "abc" eq_refl eq_refl).
Defined.

(** Pressing OK on the three prompts as they are pre-filled sends the
    movie back as it is cached, for a year that is missing or of magnitude
    at most 2^53: the prompts show the cached title, the cached year in
    decimal (nothing for a missing or zero year) and the cached genre, and
    the PATCH carries the trimmed title, the same year (left out if it was
    missing or zero) and the trimmed genre.  The year survives the round
    trip through the prompt's text. *)
Theorem edit_accepting_defaults (w : World) (m : Movie) (i : ident) :
  m_id m = Some i ->
  match m_year m with Some n => Js.safe n = true | None => True end ->
  let w' := exec (clickEdit acceptsDefaults (movieElement m)) w in
  let title := match m_title m with Some s => s | None => "" end in
  let yearShown := if Js.truthy_number (m_year m)
                   then match m_year m with Some n => Js.string_of_Z n | None => "" end
                   else "" in
  let genre := Js.or_string (m_genre m) "" in
  eval (clickEdit acceptsDefaults (movieElement m)) w = Normal true /\
  prompts (trace w')
  = (prompts (trace w)
     ++ [("Title:", title); ("Release Year:", yearShown); ("Genre:", genre)])%list /\
  requests (trace w')
  = (requests (trace w)
     ++ [mkRequest PATCH (API_URL ++ "/" ++ show_id (Some i))
           (Some (mkPayload (Js.trim title)
                    (if Js.truthy_number (m_year m)
                     then option_map Js.Num (m_year m) else None)
                    (Js.trim genre)))])%list.
Proof.
  intros Hid Hsafe w' title yearShown genre. subst w'.
  assert (Hyear : Js.or_undefined (Js.parseInt yearShown)
                  = if Js.truthy_number (m_year m)
                    then option_map Js.Num (m_year m) else None).
  { subst yearShown. destruct (m_year m) as [n|]; [| reflexivity].
    destruct (Js.truthy_number (Some n)) eqn:E; [| reflexivity].
    rewrite (parseInt_string_of_Z n Hsafe). unfold Js.or_undefined.
    cbn [Js.truthy]. cbn [Js.truthy_number] in E. now rewrite E. }
  unfold clickEdit, movieElement. rewrite Hid.
  unfold exec, eval, editMoviePrompt, bind, window_prompt, fetch, modify, ret.
  cbn -[API_URL Js.parseInt Js.trim Js.or_undefined Js.string_of_Z Js.truthy_number
        Js.or_string show_id append].
  fold title. fold yearShown. fold genre.
  rewrite !or_string_some, Hyear.
  repeat split.
  - rewrite !prompts_app. cbn. now rewrite <- !app_assoc.
  - rewrite !requests_app. cbn -[API_URL Js.trim Js.or_undefined show_id append].
    now rewrite !app_nil_r.
Qed.

Lemma edit_accepting_defaults_witness :
  let w' := exec (clickEdit acceptsDefaults (movieElement dune)) (page [dune; amelie]) in
  m_id dune = Some (IdNum 1) /\
  requests (trace w')
  = [mkRequest PATCH "http://localhost:3000/movies/1"
       (Some (mkPayload "Dune" (Some (Js.Num 2021)) "Sci-Fi"))].
Proof.
  intros w'. split; [reflexivity |].
  destruct (edit_accepting_defaults (page [dune; amelie]) dune (IdNum 1) eq_refl eq_refl)
    as [_ [_ Hreq]].
  subst w'. rewrite Hreq. reflexivity.
Defined.

(** ** How long a message stays *)

Lemma filter_nothing {A} (p : A -> bool) (l : list A) :
  (forall x, In x l -> p x = false) -> filter p l = [].
Proof.
  induction l as [|x l IH]; simpl; [reflexivity |].
  intros H. rewrite (H x (or_introl eq_refl)). apply IH. intros y Hy. apply H. now right.
Qed.

Lemma timersBounded_page (cache : list Movie) : timersBounded (page cache).
Proof. destruct cache; constructor. Qed.

(** Pending timeouts are always due within 5000 ms: [showError] and the
    passing of time keep it so.  Hence a message never outlives 5000 ms of
    quiet: that long after the last [showError] the slot is blank and no
    timeout is pending.  Until the earliest pending timeout, and for less
    than 5000 ms, the slot shows the last message. *)
Theorem message_cleared_after_quiet (w : World) (message : jsstring) (ms : Z) :
  timersBounded w -> 0 <= ms ->
  let shown := exec (showError message) w in
  timersBounded shown /\
  timersBounded (elapse ms w) /\
  (5000 <= ms ->
   mmError (elapse ms shown) = Some "" /\ timers (elapse ms shown) = []) /\
  (ms < 5000 -> Forall (fun d => now w + ms < d) (timers w) ->
   mmError (elapse ms shown) = Some message).
Proof.
  unfold timersBounded. intros Hb Hms.
  rewrite showError_exec. unfold elapse.
  cbn [timers now set_timers set_mmError set_now].
  assert (Hall : Forall (fun d => d <= now w + 5000) (timers w ++ [now w + 5000])%list).
  { apply Forall_app. split; [exact Hb |]. repeat constructor. lia. }
  split; [exact Hall |]. split; [| split].
  - assert (Hrest : Forall (fun d => d <= now w + ms + 5000)
                      (filter (fun d => negb (d <=? now w + ms)) (timers w))).
    { apply Forall_forall. intros d Hd. apply filter_In in Hd as [Hd _].
      rewrite Forall_forall in Hb. specialize (Hb d Hd). simpl in Hb. lia. }
    destruct (filter (fun d => d <=? now w + ms) (timers w)); exact Hrest.
  - intros H5.
    assert (Hdue : filter (fun d => d <=? now w + ms) (timers w ++ [now w + 5000])%list
                   <> []).
    { rewrite filter_app. cbn [filter].
      destruct (Z.leb_spec (now w + 5000) (now w + ms)); [| lia].
      destruct (filter _ (timers w)); discriminate. }
    assert (Hnone : filter (fun d => negb (d <=? now w + ms))
                      (timers w ++ [now w + 5000])%list = []).
    { rewrite Forall_forall in Hall. apply filter_nothing. intros d Hin.
      specialize (Hall d Hin). simpl in Hall.
      apply negb_false_iff, Z.leb_le. lia. }
    rewrite Hnone.
    destruct (filter (fun d => d <=? now w + ms) (timers w ++ [now w + 5000])%list);
      [congruence | split; reflexivity].
  - intros Hlt Hlate.
    assert (Hnone : filter (fun d => d <=? now w + ms) (timers w ++ [now w + 5000])%list
                    = []).
    { apply filter_nothing. intros d Hin. apply Z.leb_gt.
      apply in_app_or in Hin as [Hin | [<- | []]]; [| lia].
      rewrite Forall_forall in Hlate. specialize (Hlate d Hin). simpl in Hlate. lia. }
    rewrite Hnone. reflexivity.
Qed.

Lemma message_cleared_after_quiet_witness :
  let w1 := exec (showError "A") (page []) in
  let w2 := elapse 3000 w1 in
  timersBounded w2 /\
  mmError (elapse 5000 (exec (showError "B") w2)) = Some "" /\
  timers (elapse 5000 (exec (showError "B") w2)) = [].
Proof.
  intros w1 w2.
  assert (H0 : (0 <= 3000)%Z) by discriminate.
  destruct (message_cleared_after_quiet (page []) "A" 3000 (timersBounded_page []) H0)
    as [Hb1 _].
  assert (Hb2 : timersBounded w2).
  { destruct (message_cleared_after_quiet w1 "B" 3000 Hb1 H0) as [_ [H _]]. exact H. }
  assert (H5 : (0 <= 5000)%Z) by discriminate.
  destruct (message_cleared_after_quiet w2 "B" 5000 Hb2 H5) as [_ [_ [Hclear _]]].
  split; [exact Hb2 |]. apply Hclear. discriminate.
Defined.

(** ** The buttons of a row *)

(** Each row's buttons act on the movie of that row: after drawing a list,
    the Edit button of the k-th row opens the edit dialog with the k-th
    movie's id, title, year and genre, and its Delete button starts the
    delete of the k-th movie's id. *)
Theorem row_buttons_act_on_their_movie
    (w : World) (u : User) (l : list Movie) (k : nat) (m : Movie) :
  nth_error l k = Some m ->
  exists row,
    nth_error (movieList (exec (renderMovies l) w)) k = Some row /\
    clickEdit u row = editMoviePrompt u (m_id m) (m_title m) (m_year m) (m_genre m) /\
    clickDelete u row = deleteMovie u (m_id m).
Proof.
  intros Hk. exists (movieElement m). split; [| split; reflexivity].
  destruct l as [|x l]; [destruct k; discriminate |].
  cbn [renderMovies exec modify snd movieList set_movieList].
  rewrite nth_error_map, Hk. reflexivity.
Qed.

Lemma row_buttons_act_on_their_movie_witness :
  nth_error [dune; amelie] 1 = Some amelie /\
  exists row,
    nth_error (movieList (page [dune; amelie])) 1 = Some row /\
    requests (trace (exec (clickDelete (typing "") row) (page [dune; amelie])))
    = [mkRequest DELETE "http://localhost:3000/movies/2" None].
Proof.
  split; [reflexivity |].
  destruct (row_buttons_act_on_their_movie (page [dune; amelie]) (typing "")
              [dune; amelie] 1 amelie eq_refl) as [row [Hrow [_ Hdel]]].
  exists row. split; [exact Hrow |]. rewrite Hdel. reflexivity.
Defined.

(** Unlike Edit, Delete has no guard for a missing id: on a row whose
    movie has no id, a confirmed delete sends DELETE to ".../undefined",
    and if the server answers with a success every movie without an id
    leaves the cache, while every movie with an id stays. *)
Theorem delete_without_id_is_sent
    (w : World) (u : User) (m : Movie) (res : Response unit) :
  m_id m = None -> accepts u "Delete this movie?" = true -> ok res = true ->
  let sent := exec (clickDelete u (movieElement m)) w in
  let w' := exec (deleteMovie_then (m_id m) (Resolved res)) sent in
  eval (clickDelete u (movieElement m)) w = Normal true /\
  requests (trace sent)
  = (requests (trace w)
     ++ [mkRequest DELETE "http://localhost:3000/movies/undefined" None])%list /\
  mmError sent = mmError w /\
  (forall e, In e (allMovies w') -> m_id e <> None) /\
  (forall e, In e (allMovies w) -> m_id e <> None -> In e (allMovies w')).
Proof.
  intros Hid Hyes Hok sent w'. subst w' sent.
  assert (Hrun : clickDelete u (movieElement m) w
                 = (Normal true,
                    log (Fetched (mkRequest DELETE (API_URL ++ "/" ++ show_id None) None))
                        (log (AskedConfirm "Delete this movie?") w))).
  { unfold clickDelete, movieElement. rewrite Hid.
    unfold deleteMovie, bind, window_confirm, fetch, modify, ret. now rewrite Hyes. }
  assert (Hsent : exec (clickDelete u (movieElement m)) w
                  = log (Fetched (mkRequest DELETE (API_URL ++ "/" ++ show_id None) None))
                        (log (AskedConfirm "Delete this movie?") w))
    by (unfold exec; now rewrite Hrun).
  unfold eval. rewrite Hrun, Hsent, Hid. cbn [fst].
  rewrite (deleteMovie_then_ok None res _ Hok), renderMovies_allMovies.
  cbn [set_allMovies allMovies log trace mmError].
  repeat split.
  - rewrite !requests_app. cbn. now rewrite app_nil_r.
  - intros e Hin He. apply removeById_clean in Hin. rewrite He in Hin. discriminate.
  - intros e Hin He. unfold removeById. apply filter_In. split; [exact Hin |].
    destruct (m_id e); [reflexivity | congruence].
Qed.

Lemma delete_without_id_is_sent_witness :
  let orphan := mkMovie None (Some "Solaris") (Some 1972) None in
  let sent := exec (clickDelete (typing "") (movieElement orphan)) (page [dune; orphan]) in
  requests (trace sent)
  = [mkRequest DELETE "http://localhost:3000/movies/undefined" None] /\
  allMovies (exec (deleteMovie_then None (Resolved (mkResponse 200 (inr tt)))) sent)
  = [dune].
Proof.
  intros orphan sent.
  destruct (delete_without_id_is_sent (page [dune; orphan]) (typing "") orphan
              (mkResponse 200 (inr tt)) eq_refl eq_refl eq_refl) as [_ [Hreq _]].
  split; [exact Hreq | reflexivity].
Defined.

(** ** Runs of the search box *)

Lemma search_redraws_matches_witness :
  movieList (exec (onSearchInput "ROM") (page [dune; amelie])) = [movieElement amelie] /\
  movieList (exec (onSearchInput "zzz") (page [dune; amelie]))
  = [Paragraph "No movies found matching your criteria."] /\
  allMovies (exec (onSearchInput "zzz") (page [dune; amelie])) = [dune; amelie] /\
  movieList (exec (onSearchInput (String 160 (String 8233 "")))
                  (exec (onSearchInput "zzz") (page [dune; amelie])))
  = [movieElement dune; movieElement amelie].
Proof.
  destruct (search_redraws_matches (page [dune; amelie]) "ROM") as [_ [_ [_ [_ [H1 _]]]]].
  destruct (search_redraws_matches (page [dune; amelie]) "zzz") as [H2 [_ [_ [_ [H3 _]]]]].
  destruct (search_redraws_matches (exec (onSearchInput "zzz") (page [dune; amelie]))
              (String 160 (String 8233 ""))) as [_ [_ [_ [_ [H4 _]]]]].
  split; [exact H1 |]. split; [exact H3 |]. split; [exact H2 | exact H4].
Defined.
